(** * secure-askpass: the Android callback server

  A shallow embedding of [askpass-android-server.py]: the challenge store
  with its TTL, the authentication result cell, signature verification,
  the HTTP callback handler and the bounded serving loop. *)

From Stdlib Require Import ZArith String List Lia Bool.
From Stdlib Require Import Floats.SpecFloat.
From stdpp Require Import base option list gmap strings fin_maps.

Set Warnings "-register-all".
Local Open Scope string_scope.
Local Open Scope list_scope.
Local Open Scope Z_scope.

(** ** The Python layer: values, exceptions, outcomes *)

Module Py.

(** Python [bytes]. *)
Definition bytes := list Byte.byte.

(** The values that flow through the server: what [json.loads] can
    return, [None], and the payloads stored with a challenge. *)
Inductive pyval :=
| PyNone
| PyBool (b : bool)
| PyInt (z : Z)
| PyFloat (f : spec_float)
| PyStr (s : string)
| PyList (l : list pyval)
| PyDict (d : gmap string pyval).

(** Python truth value testing, as used by [not x]. *)
Definition truthy (v : pyval) : bool :=
  match v with
  | PyNone => false
  | PyBool b => b
  | PyInt z => negb (z =? 0)
  | PyFloat (S754_zero _) => false
  | PyFloat _ => true
  | PyStr s => negb (String.eqb s "")
  | PyList l => negb (Nat.eqb (length l) 0)
  | PyDict d => negb (Nat.eqb (size d) 0)
  end.

Definition is_None (v : pyval) : bool :=
  match v with PyNone => true | _ => false end.

(** [v is True]. *)
Definition is_True (v : pyval) : bool :=
  match v with PyBool true => true | _ => false end.

(** The exception classes that the server and the libraries it calls
    can raise; all of them derive from [Exception]. *)
Inductive exc :=
| Exception
| ValueError
| JSONDecodeError
| BinasciiError
| UnicodeError
| UnicodeDecodeError
| UnicodeEncodeError
| LookupError
| KeyError
| TypeError
| AttributeError
| RuntimeError
| RecursionError
| ImportError
| ArithmeticError
| OverflowError
| OSError
| ConnectionError
| BrokenPipeError
| ConnectionResetError
| InvalidSignature
| UnsupportedAlgorithm.

Definition exc_eqb (a b : exc) : bool :=
  match a, b with
  | Exception, Exception | ValueError, ValueError
  | JSONDecodeError, JSONDecodeError | BinasciiError, BinasciiError
  | UnicodeError, UnicodeError | UnicodeDecodeError, UnicodeDecodeError
  | UnicodeEncodeError, UnicodeEncodeError | LookupError, LookupError
  | KeyError, KeyError | TypeError, TypeError
  | AttributeError, AttributeError | RuntimeError, RuntimeError
  | RecursionError, RecursionError | ImportError, ImportError
  | ArithmeticError, ArithmeticError | OverflowError, OverflowError
  | OSError, OSError | ConnectionError, ConnectionError
  | BrokenPipeError, BrokenPipeError
  | ConnectionResetError, ConnectionResetError
  | InvalidSignature, InvalidSignature
  | UnsupportedAlgorithm, UnsupportedAlgorithm => true
  | _, _ => false
  end.

(** The direct base class. *)
Definition base_class (c : exc) : option exc :=
  match c with
  | Exception => None
  | ValueError => Some Exception
  | JSONDecodeError => Some ValueError
  | BinasciiError => Some ValueError
  | UnicodeError => Some ValueError
  | UnicodeDecodeError => Some UnicodeError
  | UnicodeEncodeError => Some UnicodeError
  | LookupError => Some Exception
  | KeyError => Some LookupError
  | TypeError => Some Exception
  | AttributeError => Some Exception
  | RuntimeError => Some Exception
  | RecursionError => Some RuntimeError
  | ImportError => Some Exception
  | ArithmeticError => Some Exception
  | OverflowError => Some ArithmeticError
  | OSError => Some Exception
  | ConnectionError => Some OSError
  | BrokenPipeError => Some ConnectionError
  | ConnectionResetError => Some ConnectionError
  | InvalidSignature => Some Exception
  | UnsupportedAlgorithm => Some Exception
  end.

Fixpoint issubclass_fuel (n : nat) (c d : exc) : bool :=
  exc_eqb c d ||
  match n with
  | O => false
  | S n' =>
      match base_class c with
      | Some b => issubclass_fuel n' b d
      | None => false
      end
  end.

(** The hierarchy above is three levels deep. *)
Definition issubclass (c d : exc) : bool := issubclass_fuel 3 c d.

(** [except (c1, c2, ...)]. *)
Definition caught_by (handlers : list exc) (e : exc) : bool :=
  existsb (issubclass e) handlers.

(** The outcome of evaluating a Python expression or call. *)
Inductive outcome (A : Type) :=
| Return (a : A)
| Raise (e : exc).
Arguments Return {A} a.
Arguments Raise {A} e.

End Py.
Export Py.

(** ** ChallengeStore *)

(** One value of [self._challenges]: [{"data": ..., "created": ...}].
  Clock readings ([time.time()]) and the TTL are numbers of clock ticks. *)
Record entry := Entry { data : pyval; created : Z }.

Record ChallengeStore := {
  ttl : Z;
  _challenges : gmap string entry
}.

Module ChallengeStore.

(** [ChallengeStore(ttl)]. *)
Definition __init__ (ttl : Z) : ChallengeStore :=
  {| ttl := ttl; _challenges := ∅ |}.

(** [add(nonce, challenge_data)], with [now] the reading of
    [time.time()]. *)
Definition add (nonce : string) (challenge_data : pyval) (now : Z)
    (self : ChallengeStore) : ChallengeStore :=
  {| ttl := ttl self;
     _challenges := <[nonce := Entry challenge_data now]> (_challenges self) |}.

(** [self._challenges.pop(nonce, None)].  The keys of the dictionary are
    [str] objects: a [str] argument is looked up and removed, a list or a
    dictionary is unhashable, and any other value is hashable but equal
    to no [str] key. *)
Definition pop (nonce : pyval) (d : gmap string entry)
    : outcome (option entry * gmap string entry) :=
  match nonce with
  | PyStr k => Return (d !! k, delete k d)
  | PyList _ | PyDict _ => Raise TypeError
  | _ => Return (None, d)
  end.

(** [validate_and_consume(nonce)]: the body runs under [self._lock];
    [now] is the reading of [time.time()]. *)
Definition validate_and_consume (nonce : pyval) (now : Z)
    (self : ChallengeStore) : outcome pyval * ChallengeStore :=
  match pop nonce (_challenges self) with
  | Raise e => (Raise e, self)
  | Return (entry, d') =>
      let self' := {| ttl := ttl self; _challenges := d' |} in
      match entry with
      | None => (Return PyNone, self')
      | Some entry =>
          if now - created entry >? ttl self
          then (Return PyNone, self')
          else (Return (data entry), self')
      end
  end.

End ChallengeStore.

(** ** AuthResult *)

Record AuthResult := {
  _result : pyval;
  _event : bool
}.

Module AuthResult.

Definition __init__ : AuthResult :=
  {| _result := PyNone; _event := false |}.

(** [set(value)]. *)
Definition set (value : pyval) (self : AuthResult) : AuthResult :=
  {| _result := value; _event := true |}.

(** [wait(timeout)] returns [self._result] once the event is set or the
    timeout has elapsed. *)
Definition wait (self : AuthResult) : pyval := _result self.

End AuthResult.

(** ** Library functions the server calls

    [json], [base64], the built-in [int] and [str.encode], and the
    [cryptography] package are not part of the repository: the server is
    verified for every behaviour of these functions, and for every value
    of the two limits of the platform that [run_server] meets. *)

(** A parsed public key, by the class [isinstance] tests for. *)
Inductive pubkey :=
| Ed25519PublicKey (key : bytes)
| EllipticCurvePublicKey (key : bytes)
| OtherPublicKey (key : bytes).

Class Libraries := {
  (** The two [from cryptography... import ...] statements in the [try]
      block of [verify_signature]. *)
  import_cryptography : outcome unit;
  (** [int(s)] on a header value. *)
  int_of_str : string → outcome Z;
  (** [json.loads(body)]. *)
  json_loads : bytes → outcome pyval;
  (** [base64.b64decode(x)]. *)
  b64decode : pyval → outcome bytes;
  (** [s.encode()]. *)
  str_encode : string → outcome bytes;
  (** [load_pem_public_key(pem)]. *)
  load_pem_public_key : bytes → outcome pubkey;
  (** [Ed25519PublicKey.verify(signature, data)]. *)
  ed25519_verify : bytes → bytes → bytes → outcome unit;
  (** [EllipticCurvePublicKey.verify(signature, data, ec.ECDSA(hashes.SHA256()))]. *)
  ecdsa_sha256_verify : bytes → bytes → bytes → outcome unit;
  (** [threading.TIMEOUT_MAX]: the longest wait that [Thread.join] takes. *)
  TIMEOUT_MAX : Z;
  (** The largest [int] that converts to [float], as the addition in
      [time.time() + timeout] requires. *)
  FLOAT_MAX : Z
}.

#[global] Instance outcome_ret : MRet outcome := @Return.
#[global] Instance outcome_bind : MBind outcome := λ A B f m,
  match m with
  | Return a => f a
  | Raise e => Raise e
  end.

(** [x.encode()]: only [str] has the method among the values at hand. *)
Definition py_encode `{Libraries} (x : pyval) : outcome bytes :=
  match x with
  | PyStr s => str_encode s
  | _ => Raise AttributeError
  end.

(** [payload.get(key)]: a dictionary answers [None] for an absent key, the
    other JSON values have no [get]. *)
Definition py_get (payload : pyval) (key : string) : outcome pyval :=
  match payload with
  | PyDict d => Return (default PyNone (d !! key))
  | _ => Raise AttributeError
  end.

(** ** verify_signature *)

(** The body of the [try] block. *)
Definition verify_signature_try `{Libraries}
    (pubkey_pem : pyval) (message_bytes signature_bytes : bytes)
    : outcome bool :=
  _ ← import_cryptography;
  pem ← py_encode pubkey_pem;
  pubkey ← load_pem_public_key pem;
  match pubkey with
  | Ed25519PublicKey key =>
      _ ← ed25519_verify key signature_bytes message_bytes;
      Return true
  | EllipticCurvePublicKey key =>
      _ ← ecdsa_sha256_verify key signature_bytes message_bytes;
      Return true
  | OtherPublicKey _ => Return false
  end.

Definition verify_signature `{Libraries} (HAS_CRYPTO : bool)
    (pubkey_pem : pyval) (message_bytes signature_bytes : bytes)
    : outcome bool :=
  if negb HAS_CRYPTO then Return false
  else
    match verify_signature_try pubkey_pem message_bytes signature_bytes with
    | Return b => Return b
    | Raise e => if issubclass e Exception then Return false else Raise e
    end.

(** ** Module-level state and the handler's effects *)

Record module_state := {
  HAS_CRYPTO : bool;
  challenge_store : ChallengeStore;
  auth_result : AuthResult;
  device_pubkey_pem : pyval
}.

(** What a handler does to the connection and to the shared objects, in
    the order it does it. *)
Inductive effect :=
| SendError (code : Z) (message : option string)
| SendJson (code : Z) (obj : pyval)
| RfileRead (n : Z)
| JsonLoads (body : bytes)
| ValidateAndConsume (nonce : pyval)
| B64Decode (x : pyval)
| VerifySignature (pubkey_pem : pyval) (message_bytes signature_bytes : bytes)
| AuthResultSet (value : pyval).

(** What running a piece of handler code gives: its outcome, the module
    state it leaves, and the effects it had. *)
Record run_of (A : Type) := Ran {
  outcome_of : outcome A;
  globals_of : module_state;
  trace_of : list effect
}.
Arguments Ran {A} _ _ _.
Arguments outcome_of {A} _.
Arguments globals_of {A} _.
Arguments trace_of {A} _.

(** Handler code: it may raise, it updates the module state and it has
    effects. *)
Definition M (A : Type) : Type := module_state → run_of A.

#[global] Instance M_ret : MRet M := λ A a g, Ran (Return a) g [].
#[global] Instance M_bind : MBind M := λ A B f m g,
  match m g with
  | Ran (Return a) g' tr =>
      match f a g' with
      | Ran r g'' tr' => Ran r g'' (tr ++ tr')
      end
  | Ran (Raise e) g' tr => Ran (Raise e) g' tr
  end.

Definition lift {A} (o : outcome A) : M A := λ g, Ran o g [].

Definition emit (e : effect) : M unit := λ g, Ran (Return tt) g [e].

Definition get_globals : M module_state := λ g, Ran (Return g) g [].

Definition put_globals (g : module_state) : M unit :=
  λ _, Ran (Return tt) g [].

(** [try: body except handlers: handler]. *)
Definition try_except {A} (body : M A) (handlers : list exc) (handler : M A)
    : M A :=
  λ g,
    match body g with
    | Ran (Raise e) g' tr =>
        if caught_by handlers e
        then match handler g' with
             | Ran r g'' tr' => Ran r g'' (tr ++ tr')
             end
        else Ran (Raise e) g' tr
    | r => r
    end.

(** ** CallbackHandler *)

Record Request := {
  command : string;
  path : string;
  (** [self.headers.get("Content-Length")], when the header is there *)
  content_length_header : option string;
  (** the bytes [self.rfile] delivers until end of file *)
  rfile : bytes;
  (** what [end_headers] and [self.wfile.write] do when [_send_json]
      writes the acknowledgement: they return, or they raise, as they do
      with a [BrokenPipeError] or a [ConnectionResetError] when the peer
      has gone *)
  wfile_write : outcome unit
}.

(** [send_error(code, message)], the last statement of every path of the
    handler that calls it: the effect records the call, and whether its
    writes reach the peer is not part of the model. *)
Definition send_error (code : Z) (message : option string) : M unit :=
  emit (SendError code message).

(** [_send_json(code, obj)]: the acknowledgement is on the connection when
    the writes have returned. *)
Definition _send_json (self : Request) (code : Z) (obj : pyval) : M unit :=
  _ ← lift (wfile_write self);
  emit (SendJson code obj).

(** What [read(n)] returns on a stream: at most [n] bytes, everything
    when [n] is negative. *)
Definition read (stream : bytes) (n : Z) : bytes :=
  if n <? 0 then stream else take (Z.to_nat n) stream.

(** [self.rfile.read(n)]. *)
Definition rfile_read (self : Request) (n : Z) : M bytes :=
  _ ← emit (RfileRead n);
  mret (read (rfile self) n).

(** The module state in which [challenge_store] has become [store']. *)
Definition with_store (g : module_state) (store' : ChallengeStore)
    : module_state :=
  {| HAS_CRYPTO := HAS_CRYPTO g;
     challenge_store := store';
     auth_result := auth_result g;
     device_pubkey_pem := device_pubkey_pem g |}.

(** The module state in which [auth_result] has become [result']. *)
Definition with_result (g : module_state) (result' : AuthResult)
    : module_state :=
  {| HAS_CRYPTO := HAS_CRYPTO g;
     challenge_store := challenge_store g;
     auth_result := result';
     device_pubkey_pem := device_pubkey_pem g |}.

(** [challenge_store.validate_and_consume(nonce)] on the module state. *)
Definition challenge_store_validate_and_consume (nonce : pyval) (now : Z)
    : M pyval :=
  _ ← emit (ValidateAndConsume nonce);
  g ← get_globals;
  let '(r, store') :=
    ChallengeStore.validate_and_consume nonce now (challenge_store g) in
  _ ← put_globals (with_store g store');
  lift r.

(** [auth_result.set(value)] on the module state. *)
Definition auth_result_set (value : pyval) : M unit :=
  _ ← emit (AuthResultSet value);
  g ← get_globals;
  put_globals (with_result g (AuthResult.set value (auth_result g))).

(** The content length: [int(self.headers.get("Content-Length", 0))]. *)
Definition read_content_length `{Libraries} (self : Request) : outcome Z :=
  match content_length_header self with
  | None => Return 0
  | Some h => int_of_str h
  end.

Definition status_ok : pyval := PyDict {[ "status" := PyStr "ok" ]}.

(** [do_POST]; [now] is the clock reading inside
    [validate_and_consume]. *)
Definition do_POST `{Libraries} (self : Request) (now : Z) : M unit :=
  if negb (String.eqb (path self) "/auth/response") then
    send_error 404 None
  else
    try_except
      (content_length ← lift (read_content_length self);
       if content_length >? 4096 then
         send_error 413 None
       else
         body ← rfile_read self content_length;
         _ ← emit (JsonLoads body);
         payload ← lift (json_loads body);
         nonce ← lift (py_get payload "nonce");
         signature_b64 ← lift (py_get payload "signature");
         if negb (truthy nonce) || negb (truthy signature_b64) then
           send_error 400 (Some "Missing nonce or signature")
         else
           challenge_data ← challenge_store_validate_and_consume nonce now;
           if is_None challenge_data then
             send_error 403 (Some "Invalid or expired challenge")
           else
             _ ← emit (B64Decode signature_b64);
             signature_bytes ← lift (b64decode signature_b64);
             g ← get_globals;
             message_bytes ← lift (py_encode nonce);
             _ ← emit (VerifySignature (device_pubkey_pem g)
                         message_bytes signature_bytes);
             ok ← lift (verify_signature (HAS_CRYPTO g) (device_pubkey_pem g)
                          message_bytes signature_bytes);
             if negb ok then
               send_error 403 (Some "Invalid signature")
             else
               _ ← _send_json self 200 status_ok;
               auth_result_set (PyBool true))
      [JSONDecodeError; KeyError; ValueError]
      (send_error 400 (Some "Invalid request")).

(** The message of the 501 answer: it quotes the command. *)
Definition unsupported_method (command : string) : string :=
  "Unsupported method ('" ++ command ++ "')".

(** The dispatch that [BaseHTTPRequestHandler.handle_one_request] performs
    for the handler class: the method named [do_] followed by the command
    is called when the class has one, and the request is answered 501
    otherwise.  [CallbackHandler] defines [do_POST] and no other. *)
Definition handle_one_request `{Libraries} (self : Request) (now : Z)
    : M unit :=
  if String.eqb (command self) "POST" then do_POST self now
  else send_error 501 (Some (unsupported_method (command self))).

(** The status codes sent on the connection, in order. *)
Definition responses (tr : list effect) : list Z :=
  omap (λ e, match e with
             | SendError code _ | SendJson code _ => Some code
             | _ => None
             end) tr.

(** ** run_server *)

(** What one call of [server.handle_request()] meets: no connection within
    [server.timeout], or a request, handled with the given clock reading. *)
Inductive arrival :=
| NoConnection
| Connection (req : Request) (now : Z).

(** [server.handle_request()]: an exception that escapes the handler is
    reported by the server and dropped. *)
Definition handle_request `{Libraries} (a : arrival) : M unit :=
  match a with
  | NoConnection => mret tt
  | Connection req now =>
      λ g, match handle_one_request req now g with
           | Ran _ g' tr => Ran (Return tt) g' tr
           end
  end.

(** The loop of [serve]: each element of the schedule is one evaluation of
    the loop condition, with its reading of [time.time()], and what the
    call of [handle_request] that follows meets.  The schedule lists the
    iterations that have come to an end when the controller reads the
    result; [run_server] below works them out from the clock. *)
Fixpoint serve `{Libraries} (deadline : Z) (sched : list (Z * arrival))
    : M unit :=
  match sched with
  | [] => mret tt
  | (t, a) :: rest =>
      g ← get_globals;
      if (t <? deadline) && is_None (_result (auth_result g))
      then _ ← handle_request a; serve deadline rest
      else mret tt
  end.

(** The reading of the loop condition that ends the loop, when the
    schedule has one. *)
Fixpoint serve_end `{Libraries} (deadline : Z) (sched : list (Z * arrival))
    (g : module_state) : option Z :=
  match sched with
  | [] => None
  | (t, a) :: rest =>
      if (t <? deadline) && is_None (_result (auth_result g))
      then serve_end deadline rest (globals_of (handle_request a g))
      else Some t
  end.

(** The iterations that the controller sees when it reads the result at
    the clock reading [T].  With each iteration the schedule of a thread
    gives the reading at which its call of [handle_request] takes effect:
    a handler is one step of the thread, and an iteration that is under
    way at [T] is not seen. *)
Fixpoint complete_by (T : Z) (sched : list (Z * arrival * Z))
    : list (Z * arrival) :=
  match sched with
  | [] => []
  | (i, t_done) :: rest =>
      if t_done <=? T then i :: complete_by T rest else []
  end.

(** [deadline = time.time() + timeout] in the thread: the sum is a float
    and the conversion of [timeout] can overflow. *)
Definition thread_deadline `{Libraries} (timeout t_start : Z) : outcome Z :=
  if FLOAT_MAX <? Z.abs timeout then Raise OverflowError
  else Return (t_start + timeout).

(** The thread that runs [serve], up to the reading [T]: an exception
    ends the thread, and it alone. *)
Definition server_thread `{Libraries} (timeout t_start : Z)
    (sched : list (Z * arrival * Z)) (T : Z) : M unit :=
  match thread_deadline timeout t_start with
  | Return deadline => serve deadline (complete_by T sched)
  | Raise _ => mret tt
  end.

(** The reading at which the thread ends, if it does. *)
Definition thread_end `{Libraries} (timeout t_start : Z)
    (sched : list (Z * arrival * Z)) (g : module_state) : option Z :=
  match thread_deadline timeout t_start with
  | Return deadline => serve_end deadline sched.*1 g
  | Raise _ => Some t_start
  end.

(** [Thread.join(timeout)] called at [t_call], and the reading at which it
    returns: when the thread has ended or when the timeout has elapsed,
    whichever comes first.  A negative timeout counts as 0, and one above
    [TIMEOUT_MAX] is refused. *)
Definition join `{Libraries} (timeout t_call : Z) (thread_end : option Z)
    : outcome Z :=
  if TIMEOUT_MAX <? timeout then Raise OverflowError
  else
    let limit := t_call + Z.max timeout 0 in
    match thread_end with
    | Some t_end =>
        Return (if t_end <=? limit then Z.max t_call t_end else limit)
    | None => Return limit
    end.

(** [HTTPServer(("0.0.0.0", port), CallbackHandler)]: the constructor binds
    the port and listens. *)
Definition HTTPServer (can_bind : Z → bool) (port : Z) : outcome unit :=
  if (port <? 0) || (65535 <? port) then Raise OverflowError
  else if can_bind port then Return tt
  else Raise OSError.

(** [run_server(port, nonce, challenge_json, pubkey_pem, timeout)] on the
    module state [g].  [t_add] is the clock reading of [add], [t_start]
    the one that fixes the deadline in the thread, [t_join] the one at
    which the controller calls [join].  The controller reads the result
    when [join] has returned: it sees what the thread has done by then. *)
Definition run_server `{Libraries} (port : Z) (nonce : string)
    (challenge_json pubkey_pem : pyval) (timeout : Z)
    (can_bind : Z → bool) (t_add t_start t_join : Z)
    (sched : list (Z * arrival * Z)) : M bool :=
  g ← get_globals;
  _ ← put_globals {| HAS_CRYPTO := HAS_CRYPTO g;
                     challenge_store :=
                       ChallengeStore.add nonce challenge_json t_add
                         (challenge_store g);
                     auth_result := auth_result g;
                     device_pubkey_pem := pubkey_pem |};
  _ ← lift (HTTPServer can_bind port);
  g1 ← get_globals;
  match join (timeout + 2) t_join (thread_end timeout t_start sched g1) with
  | Raise e =>
      _ ← server_thread timeout t_start sched t_join;
      lift (Raise e)
  | Return t_return =>
      _ ← server_thread timeout t_start sched t_return;
      g' ← get_globals;
      let result := _result (auth_result g') in
      mret (is_True result)
  end.

(** ** Kinds of requests *)

(** A request that carries a registered, unexpired nonce and a signature
    that verifies over the bytes of the nonce. *)
Record valid_request `{Libraries} (g : module_state) (now : Z)
    (self : Request) (content_length : Z) (fields : gmap string pyval)
    (nonce : string) (signature_b64 : pyval) (e : entry)
    (message_bytes signature_bytes : bytes) : Prop := {
  valid_command : command self = "POST";
  valid_path : path self = "/auth/response";
  valid_length : read_content_length self = Return content_length;
  valid_size : content_length ≤ 4096;
  valid_json :
    json_loads (read (rfile self) content_length) = Return (PyDict fields);
  valid_nonce : fields !! "nonce" = Some (PyStr nonce);
  valid_nonce_non_empty : nonce ≠ "";
  valid_signature : fields !! "signature" = Some signature_b64;
  valid_signature_truthy : truthy signature_b64 = true;
  valid_registered : _challenges (challenge_store g) !! nonce = Some e;
  valid_unexpired : now - created e ≤ ttl (challenge_store g);
  valid_payload : data e ≠ PyNone;
  valid_decoded : b64decode signature_b64 = Return signature_bytes;
  valid_encoded : str_encode nonce = Return message_bytes;
  valid_verified :
    verify_signature (HAS_CRYPTO g) (device_pubkey_pem g)
      message_bytes signature_bytes = Return true
}.

Definition is_valid `{Libraries} (g : module_state) (now : Z)
    (self : Request) : Prop :=
  ∃ content_length fields nonce signature_b64 e message_bytes signature_bytes,
    valid_request g now self content_length fields nonce signature_b64 e
      message_bytes signature_bytes.

(** A valid request whose acknowledgement can be written. *)
Definition is_accepted `{Libraries} (g : module_state) (now : Z)
    (self : Request) : Prop :=
  is_valid g now self ∧ wfile_write self = Return tt.

(** The loop comes to a request that it accepts: in an iteration that
    begins before the deadline, and with none accepted before it. *)
Fixpoint accepts `{Libraries} (deadline : Z) (sched : list (Z * arrival))
    (g : module_state) : Prop :=
  match sched with
  | [] => False
  | (t, a) :: rest =>
      t < deadline
      ∧ (match a with
         | NoConnection => False
         | Connection req now => is_accepted g now req
         end
         ∨ accepts deadline rest (globals_of (handle_request a g)))
  end.

(** Time goes forward in a schedule: a call of [handle_request] takes
    effect after the loop condition was read and before it is read
    again. *)
Fixpoint chronological (sched : list (Z * arrival * Z)) : Prop :=
  match sched with
  | [] => True
  | (t, _, t_done) :: rest =>
      t ≤ t_done
      ∧ match rest with
        | [] => True
        | (t', _, _) :: _ => t_done ≤ t'
        end
      ∧ chronological rest
  end.

(** Malformed input: a body that is not JSON, a missing field, a
    signature that is not base64. *)
Inductive malformed `{Libraries} (self : Request) : Prop :=
| bad_json content_length e :
    read_content_length self = Return content_length →
    content_length ≤ 4096 →
    json_loads (read (rfile self) content_length) = Raise e →
    issubclass e ValueError = true →
    malformed self
| missing_field content_length fields :
    read_content_length self = Return content_length →
    content_length ≤ 4096 →
    json_loads (read (rfile self) content_length) = Return (PyDict fields) →
    fields !! "nonce" = None ∨ fields !! "signature" = None →
    malformed self
| bad_base64 content_length fields nonce signature_b64 e :
    read_content_length self = Return content_length →
    content_length ≤ 4096 →
    json_loads (read (rfile self) content_length) = Return (PyDict fields) →
    fields !! "nonce" = Some nonce → truthy nonce = true →
    fields !! "signature" = Some signature_b64 →
    truthy signature_b64 = true →
    b64decode signature_b64 = Raise e →
    issubclass e ValueError = true →
    malformed self.

(** ** Sequences of calls on a store *)

(** A call of a method of the store, with its clock reading. *)
Inductive call :=
| CallAdd (nonce : string) (challenge_data : pyval) (now : Z)
| CallConsume (nonce : pyval) (now : Z).

(** What a call returns and the store it leaves; [add] returns [None]. *)
Definition do_call (c : call) (s : ChallengeStore)
    : outcome pyval * ChallengeStore :=
  match c with
  | CallAdd nonce challenge_data now =>
      (Return PyNone, ChallengeStore.add nonce challenge_data now s)
  | CallConsume nonce now => ChallengeStore.validate_and_consume nonce now s
  end.

(** Calls one after the other. *)
Fixpoint run_calls (calls : list call) (s : ChallengeStore)
    : list (outcome pyval) * ChallengeStore :=
  match calls with
  | [] => ([], s)
  | c :: rest =>
      let '(r, s') := do_call c s in
      let '(rs, s'') := run_calls rest s' in
      (r :: rs, s'')
  end.

(** The call does not register the nonce [k]. *)
Definition not_added (k : string) (c : call) : Prop :=
  match c with
  | CallAdd k' _ _ => k' ≠ k
  | CallConsume _ _ => True
  end.

(** A call that handed out the stored payload. *)
Definition non_empty (r : outcome pyval) : bool :=
  match r with
  | Return v => negb (is_None v)
  | Raise _ => false
  end.

(** The number of calls of [validate_and_consume] in a sequence that were
    made with the nonce [k] and handed out a payload. *)
Fixpoint successes (k : string) (calls : list call)
    (results : list (outcome pyval)) : nat :=
  match calls, results with
  | CallConsume (PyStr k') _ :: calls', r :: results' =>
      ((if String.eqb k' k && non_empty r then 1 else 0)
       + successes k calls' results')%nat
  | _ :: calls', _ :: results' => successes k calls' results'
  | _, _ => 0%nat
  end.

(** ** Concurrent callers of validate_and_consume

    Threads that call [validate_and_consume] at the same time, interleaved
    statement by statement; [self._lock] is a field of the configuration. *)

Module Concurrent.

(** Where a caller is in the method. *)
Inductive pc :=
| AtWith                        (* about to enter [with self._lock] *)
| AtPop                         (* holds the lock, about to pop *)
| AtCheck (e : option entry)    (* holds the lock, entry popped *)
| Returned (r : pyval).         (* lock released *)

Record config := {
  locked : bool;
  store : ChallengeStore;
  callers : list (string * pc)
}.

(** The two tests and the return, on the popped entry. *)
Definition check (ttl : Z) (e : option entry) (now : Z) : pyval :=
  match e with
  | None => PyNone
  | Some e => if now - created e >? ttl then PyNone else data e
  end.

(** One statement of caller [i]; [now] is read by the statement that
    calls [time.time()].  [None]: the caller cannot move. *)
Definition step (i : nat) (now : Z) (c : config) : option config :=
  match callers c !! i with
  | Some (nonce, AtWith) =>
      if locked c then None
      else Some {| locked := true; store := store c;
                   callers := <[i := (nonce, AtPop)]> (callers c) |}
  | Some (nonce, AtPop) =>
      let d := _challenges (store c) in
      Some {| locked := locked c;
              store := {| ttl := ttl (store c);
                          _challenges := delete nonce d |};
              callers := <[i := (nonce, AtCheck (d !! nonce))]> (callers c) |}
  | Some (nonce, AtCheck e) =>
      Some {| locked := false; store := store c;
              callers :=
                <[i := (nonce, Returned (check (ttl (store c)) e now))]>
                  (callers c) |}
  | Some (_, Returned _) | None => None
  end.

(** A schedule: which caller moves, and the clock at that moment. *)
Fixpoint run (sched : list (nat * Z)) (c : config) : option config :=
  match sched with
  | [] => Some c
  | (i, now) :: rest =>
      match step i now c with
      | Some c' => run rest c'
      | None => None
      end
  end.

(** [k] callers of [validate_and_consume(nonce)] on store [s]. *)
Definition init (k : nat) (nonce : string) (s : ChallengeStore) : config :=
  {| locked := false; store := s; callers := replicate k (nonce, AtWith) |}.

Definition has_returned (t : string * pc) : bool :=
  match t with (_, Returned _) => true | _ => false end.

Definition all_returned (c : config) : bool :=
  forallb has_returned (callers c).

Definition is_winner (t : string * pc) : bool :=
  match t with (_, Returned r) => negb (is_None r) | _ => false end.

(** The number of callers that got a payload. *)
Definition winners (c : config) : nat :=
  length (filter (λ t, is_winner t = true) (callers c)).

(** The entry for a nonce is in one place at a time: in the store, with
    the caller that popped it, or handed out to the caller that returned
    it.  [claims] counts the last two, [stored] the first. *)
Definition claims (t : string * pc) : nat :=
  match t with
  | (_, AtCheck (Some _)) => 1
  | (_, Returned r) => if is_None r then 0 else 1
  | _ => 0
  end.

Definition stored (k : string) (s : ChallengeStore) : nat :=
  match _challenges s !! k with Some _ => 1 | None => 0 end.

Definition tokens (k : string) (c : config) : nat :=
  (sum_list_with claims (callers c) + stored k (store c))%nat.

Definition before_pop (t : string * pc) : bool :=
  match t with (_, (AtWith | AtPop)) => true | _ => false end.

Definition in_critical (t : string * pc) : bool :=
  match t with (_, (AtPop | AtCheck _)) => true | _ => false end.

(** Every clock reading of the schedule is within the TTL of [e]. *)
Definition fresh_clock (e : entry) (ttl : Z) (sched : list (nat * Z)) : Prop :=
  Forall (λ p, snd p - created e ≤ ttl) sched.

(** The schedule in which the callers run one after the other. *)
Definition sequential (first k : nat) (now : Z) : list (nat * Z) :=
  flat_map (λ i, [(i, now); (i, now); (i, now)]) (seq first k).

(** The number of callers inside the [with] block. *)
Definition inside (c : config) : nat :=
  sum_list_with (λ t, if in_critical t then 1%nat else 0%nat) (callers c).

(** The lock is held by a caller that is inside the [with] block. *)
Definition lock_inv (c : config) : Prop :=
  locked c = true →
  ∃ i t, callers c !! i = Some t ∧ in_critical t = true.

End Concurrent.

(** ** Stand-ins for the libraries

    A small instance of [Libraries] on which the server can be run.  Its
    [int], [json.loads], [base64.b64decode] and [encode] agree with Python
    on the inputs used below.  Its keys and its signature scheme are
    stand-ins: three fixed texts are read as keys of the three kinds, and
    the signature of a message under either kind of key is the message
    itself. *)

Module TestLibraries.

Definition b (s : string) : bytes := String.list_byte_of_string s.

Fixpoint bytes_eqb (x y : bytes) : bool :=
  match x, y with
  | [], [] => true
  | c :: x', d :: y' => Byte.eqb c d && bytes_eqb x' y'
  | _, _ => false
  end.

Definition is_digit (c : Ascii.ascii) : bool :=
  let n := Z.of_N (Ascii.N_of_ascii c) in (48 <=? n) && (n <=? 57).

Fixpoint digits (s : string) (acc : Z) : option Z :=
  match s with
  | EmptyString => Some acc
  | String c s' =>
      if is_digit c
      then digits s' (10 * acc + (Z.of_N (Ascii.N_of_ascii c) - 48))
      else None
  end.

(** [int] on a string of decimal digits. *)
Definition test_int_of_str (s : string) : outcome Z :=
  match s with
  | EmptyString => Raise ValueError
  | _ => match digits s 0 with
         | Some z => Return z
         | None => Raise ValueError
         end
  end.

Definition quote (s : string) : bytes := (Byte.x22 :: b s ++ [Byte.x22])%list.

Fixpoint dumps_fields (kvs : list (string * string)) : bytes :=
  match kvs with
  | [] => []
  | [(k, v)] => (quote k ++ b ": " ++ quote v)%list
  | (k, v) :: rest =>
      (quote k ++ b ": " ++ quote v ++ b ", " ++ dumps_fields rest)%list
  end.

(** [json.dumps] of a dictionary from strings to strings. *)
Definition dumps (kvs : list (string * string)) : bytes :=
  (b "{" ++ dumps_fields kvs ++ b "}")%list.

Definition to_dict (kvs : list (string * string)) : pyval :=
  PyDict (list_to_map (map (λ kv, (fst kv, PyStr (snd kv))) kvs)).

(** The request bodies that the stand-in for [json.loads] can read. *)
Definition known_bodies : list (list (string * string)) :=
  [ [("nonce", "n1"); ("signature", "bjE=")];
    [("nonce", "n1"); ("signature", "abc")];
    [("nonce", "n2"); ("signature", "abc")];
    [("nonce", ""); ("signature", "")];
    [("nonce", ""); ("signature", "bjE=")];
    [("nonce", "n1"); ("signature", "")];
    [("nonce", "n1")];
    [("signature", "bjE=")] ].

Definition test_json_loads (body : bytes) : outcome pyval :=
  match find (λ kvs, bytes_eqb (dumps kvs) body) known_bodies with
  | Some kvs => Return (to_dict kvs)
  | None =>
      if bytes_eqb body (b "[]") then Return (PyList [])
      else Raise JSONDecodeError
  end.

(** [base64.b64decode]: ["bjE="] and the empty string decode, the other
    strings count as wrongly padded, as ["abc"] is, and a value that is no
    string is a [TypeError]. *)
Definition test_b64decode (x : pyval) : outcome bytes :=
  match x with
  | PyStr s =>
      if String.eqb s "bjE=" then Return (b "n1")
      else if String.eqb s "" then Return []
      else Raise BinasciiError
  | _ => Raise TypeError
  end.

Definition test_load_pem_public_key (pem : bytes) : outcome pubkey :=
  if bytes_eqb pem (b "ed25519 test key") then
    Return (Ed25519PublicKey (b "k1"))
  else if bytes_eqb pem (b "ec test key") then
    Return (EllipticCurvePublicKey (b "k2"))
  else if bytes_eqb pem (b "rsa test key") then
    Return (OtherPublicKey (b "k3"))
  else Raise ValueError.

Definition test_verify (key signature data : bytes) : outcome unit :=
  if bytes_eqb signature data then Return tt else Raise InvalidSignature.

#[export] Instance test_libraries : Libraries := {|
  import_cryptography := Return tt;
  int_of_str := test_int_of_str;
  json_loads := test_json_loads;
  b64decode := test_b64decode;
  str_encode := λ s, Return (b s);
  load_pem_public_key := test_load_pem_public_key;
  ed25519_verify := test_verify;
  ecdsa_sha256_verify := test_verify;
  TIMEOUT_MAX := 9223372036;
  FLOAT_MAX := 2 ^ 1024 - 2 ^ 970 - 1
|}.

(** A module state with the challenge ["n1"] registered at time 100 with
    a TTL of 30, and the ed25519 test key. *)
Definition g0 : module_state := {|
  HAS_CRYPTO := true;
  challenge_store :=
    ChallengeStore.add "n1" (PyStr "challenge") 100 (ChallengeStore.__init__ 30);
  auth_result := AuthResult.__init__;
  device_pubkey_pem := PyStr "ed25519 test key"
|}.

Definition post (content_length : string) (body : bytes) : Request := {|
  command := "POST";
  path := "/auth/response";
  content_length_header := Some content_length;
  rfile := body;
  wfile_write := Return tt
|}.

End TestLibraries.

(** ** Scenarios *)

Module Scenarios.

Import TestLibraries.

(** The store of the concurrency test: one challenge, TTL 30. *)
Definition race_store : ChallengeStore :=
  ChallengeStore.add "race_nonce" (PyDict {[ "cmd" := PyStr "race" ]}) 0
    (ChallengeStore.__init__ 30).

(** Three callers: the second one gets the lock first, then the third,
    then the first. *)
Definition race_schedule : list (nat * Z) :=
  [(1%nat, 1); (1%nat, 1); (1%nat, 2);
   (2%nat, 2); (2%nat, 3); (2%nat, 3);
   (0%nat, 4); (0%nat, 4); (0%nat, 5)].

(** The store of the expiry test: TTL 1, registered at time 0. *)
Definition expiry_store : ChallengeStore :=
  ChallengeStore.add "nonce_expire" (PyDict {[ "cmd" := PyStr "expired" ]}) 0
    (ChallengeStore.__init__ 1).

(** Requests. *)
Definition good_request : Request :=
  post "36" (dumps [("nonce", "n1"); ("signature", "bjE=")]).

Definition bad_base64_request : Request :=
  post "35" (dumps [("nonce", "n1"); ("signature", "abc")]).


Definition missing_signature_request : Request :=
  post "15" (dumps [("nonce", "n1")]).

Definition empty_nonce_request : Request :=
  post "34" (dumps [("nonce", ""); ("signature", "bjE=")]).

Definition not_json_request : Request :=
  post "8" (b "not json").

Definition oversized_request : Request :=
  post "5000" (repeat Byte.x78 5000).

Definition wrong_path_request : Request := {|
  command := "POST";
  path := "/wrong";
  content_length_header := Some "35";
  rfile := dumps [("nonce", "n1"); ("signature", "abc")];
  wfile_write := Return tt
|}.

Definition get_request : Request := {|
  command := "GET";
  path := "/auth/response";
  content_length_header := None;
  rfile := [];
  wfile_write := Return tt
|}.

(** A module state in which a challenge is registered under the empty
    string. *)
Definition g_empty : module_state := {|
  HAS_CRYPTO := true;
  challenge_store :=
    ChallengeStore.add "" (PyStr "challenge") 100 (ChallengeStore.__init__ 30);
  auth_result := AuthResult.__init__;
  device_pubkey_pem := PyStr "ed25519 test key"
|}.

(** The module state at import time. *)
Definition g_import : module_state := {|
  HAS_CRYPTO := true;
  challenge_store := ChallengeStore.__init__ 30;
  auth_result := AuthResult.__init__;
  device_pubkey_pem := PyNone
|}.



End Scenarios.

(** ** The loop of the test suite *)

(** The [serve] of [_start_test_server] in the tests: the deadline is
    tested first, the result inside the loop and only when [stop_on_auth]
    is set. *)
Fixpoint test_serve `{Libraries} (stop_on_auth : bool) (deadline : Z)
    (sched : list (Z * arrival)) : M unit :=
  match sched with
  | [] => mret tt
  | (t, a) :: rest =>
      g ← get_globals;
      if t <? deadline then
        if stop_on_auth && negb (is_None (_result (auth_result g)))
        then mret tt
        else _ ← handle_request a; test_serve stop_on_auth deadline rest
      else mret tt
  end.


(** The call does not name the nonce [k]. *)
Definition other_nonce (k : string) (c : call) : Prop :=
  match c with
  | CallAdd k' _ _ => k' ≠ k
  | CallConsume nonce _ => nonce ≠ PyStr k
  end.

(** ** main *)

Definition usage : string :=
  "Usage: askpass-android-server.py <port> <nonce> <challenge_json> <pubkey_pem_file> [timeout]".

(** What the process is started in: its arguments, the files it can read
    ([None] when [open] or [read] raises), the ports it can bind, the
    clock readings of [run_server] and the schedule of its thread. *)
Record environment := {
  argv : list string;
  read_text : string → option string;
  can_bind : Z → bool;
  clock_add : Z;
  clock_start : Z;
  clock_join : Z;
  arrivals : list (Z * arrival * Z)
}.

(** How the process ends: [sys.exit(code)], or an exception that nothing
    handles. *)
Inductive termination :=
| SysExit (code : Z)
| Uncaught.

Record process := Process {
  (** what [print] writes; the traceback that the interpreter prints for
      an exception that nothing handles is not part of [stderr] *)
  stdout : list string;
  stderr : list string;
  termination_of : termination;
  (** the module state at the end, and the effects of the handlers *)
  state_of : module_state;
  effects_of : list effect
}.

(** The exit status of the process: an exception that nothing handles
    ends the interpreter with status 1. *)
Definition exit_status (p : process) : Z :=
  match termination_of p with
  | SysExit code => code
  | Uncaught => 1
  end.

(** The module state when [run_server] has stored the key and registered
    the challenge, which is when it binds the port. *)
Definition registered (nonce : string) (challenge_json pubkey_pem : pyval)
    (t_add : Z) (g : module_state) : module_state :=
  {| HAS_CRYPTO := HAS_CRYPTO g;
     challenge_store :=
       ChallengeStore.add nonce challenge_json t_add (challenge_store g);
     auth_result := auth_result g;
     device_pubkey_pem := pubkey_pem |}.

(** [main()].  The port is bound inside [run_server], after the challenge
    has been registered; an exception of [run_server] ends the process. *)
Definition main `{Libraries} (env : environment) (g : module_state)
    : process :=
  match argv env with
  | _ :: arg1 :: nonce :: challenge_json :: pubkey_pem_file :: rest =>
      match int_of_str arg1 with
      | Raise _ => Process [] [] Uncaught g []
      | Return port =>
          match match rest with
                | [] => Return 30
                | arg5 :: _ => int_of_str arg5
                end with
          | Raise _ => Process [] [] Uncaught g []
          | Return timeout =>
              match read_text env pubkey_pem_file with
              | None => Process [] [] Uncaught g []
              | Some pubkey_pem =>
                  let r := run_server port nonce (PyStr challenge_json)
                             (PyStr pubkey_pem) timeout (can_bind env)
                             (clock_add env) (clock_start env)
                             (clock_join env) (arrivals env) g in
                  match outcome_of r with
                  | Return true =>
                      Process ["AUTH_SUCCESS"] [] (SysExit 0)
                        (globals_of r) (trace_of r)
                  | Return false =>
                      Process ["AUTH_TIMEOUT"] [] (SysExit 1)
                        (globals_of r) (trace_of r)
                  | Raise _ =>
                      Process [] [] Uncaught (globals_of r) (trace_of r)
                  end
              end
          end
      end
  | _ => Process [] [usage] (SysExit 1) g []
  end.

(** ** The device list of the tests *)

(** [data.get(key, default)]. *)
Definition py_get_default (payload : pyval) (key : string) (dflt : pyval)
    : outcome pyval :=
  match payload with
  | PyDict d => Return (default dflt (d !! key))
  | _ => Raise AttributeError
  end.

(** [_load_android_devices(path)] of the tests, which mirrors the loader
    of askpass: [exists] is [os.path.exists], and [json_load] opens the
    file and runs [json.load] on it. *)
Definition _load_android_devices (exists_ : string → bool)
    (json_load : string → outcome pyval) (path : string) : outcome pyval :=
  if negb (exists_ path) then Return (PyList [])
  else
    match data ← json_load path; py_get_default data "devices" (PyList []) with
    | Return devices => Return devices
    | Raise e =>
        if issubclass e Exception then Return (PyList []) else Raise e
    end.

(** ** More scenarios *)

Module MoreScenarios.

Import TestLibraries.

(** A module state whose key is of a family that is not supported. *)
Definition g_rsa : module_state := {|
  HAS_CRYPTO := true;
  challenge_store :=
    ChallengeStore.add "n1" (PyStr "challenge") 100 (ChallengeStore.__init__ 30);
  auth_result := AuthResult.__init__;
  device_pubkey_pem := PyStr "rsa test key"
|}.

(** A request whose body is a JSON list. *)
Definition list_request : Request := post "2" (b "[]").

(** A request without a Content-Length header. *)
Definition no_length_request : Request := {|
  command := "POST";
  path := "/auth/response";
  content_length_header := None;
  rfile := dumps [("nonce", "n1"); ("signature", "bjE=")];
  wfile_write := Return tt
|}.

(** A request whose Content-Length is not a number. *)
Definition bad_length_request : Request :=
  post "many" (dumps [("nonce", "n1"); ("signature", "bjE=")]).

(** The command line of a run, the key file and a bound port. *)
Definition files (path : string) : option string :=
  if String.eqb path "key.pem" then Some "ed25519 test key" else None.

Definition env_of (args : list string) (sched : list (Z * arrival * Z))
    : environment := {|
  argv := "askpass-android-server.py" :: args;
  read_text := files;
  can_bind := λ port, port =? 8765;
  clock_add := 100;
  clock_start := 100;
  clock_join := 100;
  arrivals := sched
|}.

(** The device files of the tests. *)
Definition device_files (path : string) : outcome pyval :=
  if String.eqb path "devices.json" then
    Return (PyDict {[ "devices" :=
                        PyList [PyDict {[ "name" := PyStr "Pixel" ]}] ]})
  else if String.eqb path "null.json" then
    Return (PyDict {[ "devices" := PyNone ]})
  else Raise JSONDecodeError.

(** The stand-in libraries with an [int] that reads a sign. *)
Definition signed_int_of_str (s : string) : outcome Z :=
  match s with
  | String c rest =>
      if Z.of_N (Ascii.N_of_ascii c) =? 45 then
        match test_int_of_str rest with
        | Return z => Return (- z)
        | Raise e => Raise e
        end
      else test_int_of_str s
  | EmptyString => test_int_of_str s
  end.

Definition signed_libraries : Libraries := {|
  import_cryptography := Return tt;
  int_of_str := signed_int_of_str;
  json_loads := test_json_loads;
  b64decode := test_b64decode;
  str_encode := λ s, Return (b s);
  load_pem_public_key := test_load_pem_public_key;
  ed25519_verify := test_verify;
  ecdsa_sha256_verify := test_verify;
  TIMEOUT_MAX := 9223372036;
  FLOAT_MAX := 2 ^ 1024 - 2 ^ 970 - 1
|}.

(** A request that declares a length of -1 and sends five thousand
    bytes. *)
Definition negative_length_request : Request :=
  post "-1" (repeat Byte.x78 5000).

End MoreScenarios.

(** * Properties *)

(** ** The exception hierarchy *)

Lemma issubclass_Exception (e : exc) : issubclass e Exception = true.
Proof. destruct e; reflexivity. Qed.


Lemma caught_by_ValueError (e : exc) :
  issubclass e ValueError = true →
  caught_by [JSONDecodeError; KeyError; ValueError] e = true.
Proof. destruct e; simpl; intros; done. Qed.

(** ** ChallengeStore *)

Section store_properties.

Import ChallengeStore.

Implicit Types (s : ChallengeStore) (nonce k : string) (e : entry).

Lemma validate_and_consume_str s k now :
  validate_and_consume (PyStr k) now s =
    (Return (Concurrent.check (ttl s) (_challenges s !! k) now),
     {| ttl := ttl s; _challenges := delete k (_challenges s) |}).
Proof.
  unfold validate_and_consume, pop, Concurrent.check.
  destruct (_challenges s !! k) as [e|]; [|done].
  by destruct (now - created e >? ttl s).
Qed.

(** Only a [str] nonce can be handed a payload, and a call never puts
    an entry into the store. *)
Lemma validate_and_consume_non_empty s (nonce : pyval) now :
  non_empty (fst (validate_and_consume nonce now s)) = true →
  ∃ k e, nonce = PyStr k ∧ _challenges s !! k = Some e ∧
         now - created e ≤ ttl s ∧ data e ≠ PyNone.
Proof.
  destruct nonce as [| | | |k| |]; try discriminate.
  rewrite validate_and_consume_str. simpl.
  destruct (_challenges s !! k) as [e|] eqn:He; [|discriminate].
  simpl. destruct (Z.gtb_spec (now - created e) (ttl s)); [discriminate|].
  intros Hne. exists k, e. split_and!; [done|done|lia|].
  intros Heq. rewrite Heq in Hne. discriminate.
Qed.

Lemma validate_and_consume_ttl s (nonce : pyval) now :
  ttl (snd (validate_and_consume nonce now s)) = ttl s.
Proof.
  unfold validate_and_consume.
  destruct (pop nonce (_challenges s)) as [[[e|] d']|]; simpl; try done.
  by destruct (now - created e >? ttl s).
Qed.

Lemma validate_and_consume_absent s (nonce : pyval) now k :
  _challenges s !! k = None →
  _challenges (snd (validate_and_consume nonce now s)) !! k = None.
Proof.
  intros Hk. destruct nonce as [| | | |k'| |]; try (simpl; done).
  rewrite validate_and_consume_str. simpl.
  destruct (decide (k' = k)) as [->|Hne].
  - apply lookup_delete_eq.
  - by rewrite lookup_delete_ne.
Qed.

Lemma validate_and_consume_removes s k now :
  _challenges (snd (validate_and_consume (PyStr k) now s)) !! k = None.
Proof. rewrite validate_and_consume_str. apply lookup_delete_eq. Qed.

Lemma validate_and_consume_empty s k now :
  _challenges s !! k = None →
  fst (validate_and_consume (PyStr k) now s) = Return PyNone.
Proof. intros Hk. rewrite validate_and_consume_str. simpl. by rewrite Hk. Qed.

End store_properties.

(** ** Sequences of calls *)

Section call_sequences.

Import ChallengeStore.

Lemma run_calls_cons c calls s :
  run_calls (c :: calls) s =
    (fst (do_call c s) :: fst (run_calls calls (snd (do_call c s))),
     snd (run_calls calls (snd (do_call c s)))).
Proof.
  simpl. destruct (do_call c s) as [r s'].
  simpl. by destruct (run_calls calls s') as [rs s''].
Qed.

Lemma run_calls_length calls s :
  length (fst (run_calls calls s)) = length calls.
Proof.
  revert s. induction calls as [|c calls IH]; intros s; [done|].
  rewrite run_calls_cons. simpl. by rewrite IH.
Qed.

(** A call that does not register the nonce leaves it out of the store. *)
Lemma do_call_absent k c s :
  not_added k c →
  _challenges s !! k = None →
  _challenges (snd (do_call c s)) !! k = None.
Proof.
  destruct c as [k' payload t|nonce t]; simpl; intros Hc Hk.
  - by rewrite lookup_insert_ne.
  - by apply validate_and_consume_absent.
Qed.

(** Once the nonce is out of the store, and as long as it is not
    registered again, no call is handed a payload for it. *)
Lemma run_calls_absent k calls s :
  Forall (not_added k) calls →
  _challenges s !! k = None →
  ∀ i now,
    calls !! i = Some (CallConsume (PyStr k) now) →
    fst (run_calls calls s) !! i = Some (Return PyNone).
Proof.
  revert s. induction calls as [|c calls IH]; intros s Hadd Hk i now Hi.
  - by destruct i.
  - apply Forall_cons in Hadd as [Hc Hadd].
    rewrite run_calls_cons. destruct i as [|i]; simpl in *.
    + injection Hi as ->. f_equal. by apply validate_and_consume_empty.
    + eapply IH; [done| |done]. by apply do_call_absent.
Qed.

Lemma successes_absent k calls s :
  Forall (not_added k) calls →
  _challenges s !! k = None →
  successes k calls (fst (run_calls calls s)) = 0%nat.
Proof.
  revert s. induction calls as [|c calls IH]; intros s Hadd Hk; [done|].
  apply Forall_cons in Hadd as [Hc Hadd].
  rewrite run_calls_cons.
  assert (successes k calls (fst (run_calls calls (snd (do_call c s))))
          = 0%nat) as IH'.
  { apply IH; [done|]. by apply do_call_absent. }
  destruct c as [k' payload t|[| | | |k'| |] t]; simpl in *; try done.
  rewrite IH'. destruct (String.eqb_spec k' k) as [->|]; [|done].
  by rewrite validate_and_consume_empty.
Qed.

Lemma successes_at_most_one k calls s :
  Forall (not_added k) calls →
  (successes k calls (fst (run_calls calls s)) ≤ 1)%nat.
Proof.
  revert s. induction calls as [|c calls IH]; intros s Hadd; [simpl; lia|].
  apply Forall_cons in Hadd as [Hc Hadd].
  rewrite run_calls_cons.
  specialize (IH (snd (do_call c s)) Hadd).
  destruct c as [k' payload t|[| | | |k'| |] t]; simpl in *; try done.
  destruct (String.eqb_spec k' k) as [->|]; simpl; [|done].
  rewrite successes_absent; [|done|apply validate_and_consume_removes].
  destruct (non_empty _); lia.
Qed.

(** The test of the store: the second call returns [None]. *)
Example add_and_consume :
  fst (run_calls [CallAdd "nonce1" (PyStr "test") 0;
                  CallConsume (PyStr "nonce1") 1;
                  CallConsume (PyStr "nonce1") 2] (__init__ 30))
  = [Return PyNone; Return (PyStr "test"); Return PyNone].
Proof. reflexivity. Qed.

(** A nonce that is registered again can be consumed again. *)
Example added_again :
  fst (run_calls [CallAdd "nonce1" (PyStr "test") 0;
                  CallConsume (PyStr "nonce1") 1;
                  CallAdd "nonce1" (PyStr "test") 2;
                  CallConsume (PyStr "nonce1") 3] (__init__ 30))
  = [Return PyNone; Return (PyStr "test");
     Return PyNone; Return (PyStr "test")].
Proof. reflexivity. Qed.

End call_sequences.

(** ** Concurrent callers *)

Module ConcurrentFacts.

Import Concurrent.

Lemma sum_list_with_insert {A} (f : A → nat) (l : list A) i x y :
  l !! i = Some x →
  (sum_list_with f (<[i:=y]> l) + f x = sum_list_with f l + f y)%nat.
Proof.
  revert i. induction l as [|a l IH]; intros [|i] Hi; simplify_eq/=; [lia|].
  specialize (IH i Hi). lia.
Qed.

Lemma claims_check ttl e now :
  ((if is_None (check ttl e now) then 0 else 1)
   ≤ match e with Some _ => 1 | None => 0 end)%nat.
Proof.
  destruct e as [e|]; simpl; [|lia].
  destruct (now - created e >? ttl); simpl; [lia|].
  destruct (is_None (data e)); lia.
Qed.

Lemma stored_delete k s :
  stored k {| ttl := ttl s; _challenges := delete k (_challenges s) |} = 0%nat.
Proof. unfold stored. simpl. by rewrite lookup_delete_eq. Qed.

(** A step never creates a token. *)
Lemma step_tokens k i now c c' :
  Forall (λ t, fst t = k) (callers c) →
  step i now c = Some c' →
  Forall (λ t, fst t = k) (callers c') ∧ (tokens k c' ≤ tokens k c)%nat.
Proof.
  intros Hk Hstep. unfold step in Hstep.
  destruct (callers c !! i) as [[nonce p]|] eqn:Hi; [|done].
  assert (nonce = k) as -> by apply (Forall_lookup_1 _ _ _ _ Hk Hi).
  destruct p as [| |e|r]; [destruct (locked c); [done|]| | |done];
    simplify_eq/=; (split; [by apply Forall_insert|]); unfold tokens; simpl.
  - pose proof (sum_list_with_insert claims _ _ _ (k, AtPop) Hi) as Hs.
    simpl in Hs. lia.
  - pose proof (sum_list_with_insert claims _ _ _
                  (k, AtCheck (_challenges (store c) !! k)) Hi) as Hs.
    simpl in Hs.
    rewrite stored_delete. unfold stored.
    destruct (_challenges (store c) !! k); lia.
  - pose proof (sum_list_with_insert claims _ _ _
                  (k, Returned (check (ttl (store c)) e now)) Hi) as Hs.
    simpl in Hs.
    pose proof (claims_check (ttl (store c)) e now).
    destruct e; lia.
Qed.

Lemma run_tokens k sched c c' :
  Forall (λ t, fst t = k) (callers c) →
  run sched c = Some c' →
  (tokens k c' ≤ tokens k c)%nat.
Proof.
  revert c. induction sched as [|[i now] sched IH]; intros c Hk Hrun.
  - by simplify_eq/=.
  - simpl in Hrun. destruct (step i now c) as [c1|] eqn:Hstep; [|done].
    destruct (step_tokens _ _ _ _ _ Hk Hstep) as [Hk1 Hle].
    specialize (IH c1 Hk1 Hrun). lia.
Qed.

Lemma winners_le_claims (l : list (string * pc)) :
  (length (filter (λ t, is_winner t = true) l) ≤ sum_list_with claims l)%nat.
Proof.
  induction l as [|[n p] l IH]; [done|].
  rewrite filter_cons. simpl.
  destruct p as [| |[e|]|r]; simpl; try lia.
  destruct (is_None r); case_decide; simpl in *; try done; lia.
Qed.

Lemma init_tokens k n s : (tokens n (init k n s) ≤ 1)%nat.
Proof.
  unfold tokens, init. simpl.
  assert (sum_list_with claims (replicate k (n, AtWith)) = 0%nat) as ->.
  { induction k; simpl; [done|]. by rewrite IHk. }
  unfold stored. destruct (_ !! _); lia.
Qed.

(** At most one caller gets the payload, at every moment of every
    interleaving. *)
Lemma at_most_one_winner k n s sched c :
  run sched (init k n s) = Some c → (winners c ≤ 1)%nat.
Proof.
  intros Hrun. unfold winners.
  pose proof (winners_le_claims (callers c)) as Hw.
  pose proof (init_tokens k n s) as Hinit.
  assert (tokens n c ≤ tokens n (init k n s))%nat as Hle.
  { eapply run_tokens; [|done]. by apply Forall_replicate. }
  unfold tokens at 1 in Hle. lia.
Qed.

(** *** Exactly one winner while the entry is live *)

Record live_inv (k : string) (e0 : entry) (T : Z) (c : config) : Prop := {
  live_ttl : ttl (store c) = T;
  live_nonce : Forall (λ t, fst t = k) (callers c);
  live_popped :
    Forall (λ t, ∀ e, snd t = AtCheck (Some e) → e = e0) (callers c);
  live_stored :
    ∀ e, _challenges (store c) !! k = Some e →
         e = e0 ∧ Forall (λ t, before_pop t = true) (callers c);
  live_tokens : tokens k c = 1%nat
}.

Lemma step_length i now c c' :
  step i now c = Some c' → length (callers c') = length (callers c).
Proof.
  unfold step. intros Hstep.
  destruct (callers c !! i) as [[nonce [| |e|r]]|]; [destruct (locked c)| | | |];
    simplify_eq/=; by rewrite length_insert.
Qed.

Lemma run_length sched c c' :
  run sched c = Some c' → length (callers c') = length (callers c).
Proof.
  revert c. induction sched as [|[i now] sched IH]; intros c Hrun.
  - by simplify_eq/=.
  - simpl in Hrun. destruct (step i now c) as [c1|] eqn:Hstep; [|done].
    rewrite (IH c1 Hrun). by eapply step_length.
Qed.

Lemma step_live k e0 T i now c c' :
  data e0 ≠ PyNone →
  now - created e0 ≤ T →
  live_inv k e0 T c →
  step i now c = Some c' →
  live_inv k e0 T c'.
Proof.
  intros Hdata Hfresh [Httl Hk Hpop Hst Htok] Hstep.
  destruct (step_tokens _ _ _ _ _ Hk Hstep) as [Hk' _].
  unfold step in Hstep.
  destruct (callers c !! i) as [[nonce p]|] eqn:Hi; [|done].
  assert (nonce = k) as -> by apply (Forall_lookup_1 _ _ _ _ Hk Hi).
  destruct p as [| |e|r]; [destruct (locked c); [done|]| | |done];
    simplify_eq/=; split; simpl; try done.
  - apply Forall_insert; [done|]. by intros e.
  - intros e He. destruct (Hst e He) as [-> Hb]. split; [done|].
    by apply Forall_insert.
  - unfold tokens in *. simpl.
    pose proof (sum_list_with_insert claims _ _ _ (k, AtPop) Hi) as Hs.
    simpl in Hs. lia.
  - apply Forall_insert; [done|]. simpl. intros e [= He].
    by destruct (Hst e He).
  - intros e He. by rewrite lookup_delete_eq in He.
  - unfold tokens in *. simpl.
    pose proof (sum_list_with_insert claims _ _ _
                  (k, AtCheck (_challenges (store c) !! k)) Hi) as Hs.
    simpl in Hs. rewrite stored_delete. unfold stored in Htok.
    destruct (_challenges (store c) !! k); lia.
  - apply Forall_insert; [done|]. by intros e'.
  - intros e' He'. destruct (Hst e' He') as [_ Hb].
    by pose proof (Forall_lookup_1 _ _ _ _ Hb Hi).
  - unfold tokens in *. simpl.
    pose proof (sum_list_with_insert claims _ _ _
                  (k, Returned (check (ttl (store c)) e now)) Hi) as Hs.
    simpl in Hs.
    assert ((if is_None (check (ttl (store c)) e now) then 0%nat else 1%nat)
            = match e with Some _ => 1%nat | None => 0%nat end) as Hc.
    { destruct e as [e|]; [|done].
      assert (e = e0) as -> by (by apply (Forall_lookup_1 _ _ _ _ Hpop Hi)).
      simpl. destruct (Z.gtb_spec (now - created e0) (ttl (store c))); [lia|].
      by destruct (data e0). }
    rewrite Hc in Hs. lia.
Qed.

Lemma run_live k e0 T sched c c' :
  data e0 ≠ PyNone →
  fresh_clock e0 T sched →
  live_inv k e0 T c →
  run sched c = Some c' →
  live_inv k e0 T c'.
Proof.
  intros Hdata. revert c.
  induction sched as [|[i now] sched IH]; intros c Hfresh Hinv Hrun.
  - by simplify_eq/=.
  - simpl in Hrun. destruct (step i now c) as [c1|] eqn:Hstep; [|done].
    apply Forall_cons in Hfresh as [Hnow Hfresh].
    eapply IH; [done| |done]. by eapply step_live.
Qed.

Lemma init_live k n s e0 :
  _challenges s !! n = Some e0 →
  live_inv n e0 (ttl s) (init k n s).
Proof.
  intros He0. split; simpl.
  - done.
  - by apply Forall_replicate.
  - by apply Forall_replicate.
  - intros e He. split; [congruence|]. by apply Forall_replicate.
  - unfold tokens, init, stored. simpl. rewrite He0.
    assert (sum_list_with claims (replicate k (n, AtWith)) = 0%nat) as ->; [|done].
    induction k; simpl; [done|]. by rewrite IHk.
Qed.

Lemma winners_eq_claims (l : list (string * pc)) :
  forallb has_returned l = true →
  length (filter (λ t, is_winner t = true) l) = sum_list_with claims l.
Proof.
  induction l as [|[n p] l IH]; [done|].
  rewrite filter_cons. simpl. intros [Hp Hl]%andb_prop.
  specialize (IH Hl). destruct p as [| |e|r]; try done. simpl.
  destruct (is_None r); case_decide; simpl in *; try done; lia.
Qed.

(** When the entry is live during the whole run, exactly one of the
    callers gets the payload. *)
Lemma exactly_one_winner k n s e0 sched c :
  (0 < k)%nat →
  _challenges s !! n = Some e0 →
  data e0 ≠ PyNone →
  fresh_clock e0 (ttl s) sched →
  run sched (init k n s) = Some c →
  all_returned c = true →
  winners c = 1%nat.
Proof.
  intros Hk He0 Hdata Hfresh Hrun Hall.
  destruct (run_live n e0 (ttl s) sched _ _ Hdata Hfresh (init_live k n s e0 He0) Hrun)
    as [_ _ _ Hst Htok].
  unfold winners. rewrite winners_eq_claims; [|done].
  unfold tokens, stored in Htok.
  destruct (_challenges (store c) !! n) as [e|] eqn:He; [|lia].
  destruct (Hst e eq_refl) as [_ Hb].
  pose proof (run_length _ _ _ Hrun) as Hlen. simpl in Hlen.
  rewrite length_replicate in Hlen.
  unfold all_returned in Hall.
  destruct (callers c) as [|[n' p] l]; [simpl in Hlen; lia|].
  apply Forall_cons in Hb as [Hb _].
  by destruct p.
Qed.

(** *** The lock: some caller can always move *)

Lemma step_lock_inv i now c c' :
  lock_inv c → step i now c = Some c' → lock_inv c'.
Proof.
  unfold step, lock_inv. intros Hinv Hstep.
  destruct (callers c !! i) as [[nonce p]|] eqn:Hi; [|done].
  pose proof (lookup_lt_Some _ _ _ Hi) as Hlt.
  destruct p as [| |e|r]; [destruct (locked c); [done|]| | |done];
    simplify_eq/=; intros Hl; try done.
  - exists i, (nonce, AtPop). by rewrite list_lookup_insert_eq.
  - exists i, (nonce, AtCheck (_challenges (store c) !! nonce)).
    by rewrite list_lookup_insert_eq.
Qed.

Lemma run_lock_inv sched c c' :
  lock_inv c → run sched c = Some c' → lock_inv c'.
Proof.
  revert c. induction sched as [|[i now] sched IH]; intros c Hinv Hrun.
  - by simplify_eq/=.
  - simpl in Hrun. destruct (step i now c) as [c1|] eqn:Hstep; [|done].
    eapply IH; [|done]. by eapply step_lock_inv.
Qed.

Lemma forallb_false {A} (f : A → bool) (l : list A) :
  forallb f l = false → ∃ x, In x l ∧ f x = false.
Proof.
  induction l as [|a l IH]; [done|]. simpl.
  destruct (f a) eqn:Ha; simpl.
  - intros (x & Hin & Hx)%IH. exists x. by split; [right|].
  - intros _. exists a. by split; [left|].
Qed.

Lemma progress c :
  lock_inv c →
  all_returned c = false →
  ∃ i, ∀ now, is_Some (step i now c).
Proof.
  intros Hinv Hall.
  destruct (existsb in_critical (callers c)) eqn:Hcrit.
  - apply existsb_exists in Hcrit as ([n p] & Hin & Hp).
    apply list_elem_of_In, list_elem_of_lookup in Hin as [i Hi].
    exists i. intros now. unfold step. rewrite Hi.
    by destruct p.
  - assert (locked c = false) as Hfree.
    { destruct (locked c) eqn:Hl; [|done].
      destruct (Hinv Hl) as (i & t & Hi & Ht).
      assert (existsb in_critical (callers c) = true) as Hex; [|congruence].
      apply existsb_exists. exists t. split; [|done].
      apply list_elem_of_In. by eapply list_elem_of_lookup_2. }
    unfold all_returned in Hall.
    apply forallb_false in Hall as ([n p] & Hin & Hp).
    assert (in_critical (n, p) = false) as Hnc.
    { destruct (in_critical (n, p)) eqn:Hc; [|done].
      assert (existsb in_critical (callers c) = true) as Hex; [|congruence].
      apply existsb_exists. by exists (n, p). }
    apply list_elem_of_In, list_elem_of_lookup in Hin as [i Hi].
    exists i. intros now. unfold step. rewrite Hi, Hfree.
    by destruct p.
Qed.

(** *** Mutual exclusion *)

Lemma step_inside i now c c' :
  inside c = (if locked c then 1 else 0)%nat →
  step i now c = Some c' →
  inside c' = (if locked c' then 1 else 0)%nat.
Proof.
  unfold step, inside. intros Hinv Hstep.
  destruct (callers c !! i) as [[nonce p]|] eqn:Hi; [|done].
  pose proof (λ y, sum_list_with_insert
                     (λ t, if in_critical t then 1%nat else 0%nat)
                     (callers c) i (nonce, p) y Hi) as Hs.
  destruct p as [| |e|r]; [destruct (locked c) eqn:Hl; [done|]| | |done];
    simplify_eq/=.
  - specialize (Hs (nonce, AtPop)). simpl in Hs. lia.
  - specialize (Hs (nonce, AtCheck (_challenges (store c) !! nonce))).
    simpl in Hs. lia.
  - specialize (Hs (nonce, Returned (check (ttl (store c)) e now))).
    simpl in Hs. destruct (locked c); lia.
Qed.

(** The lock is held exactly when one caller is inside the [with] block,
    and no second caller ever is. *)
Lemma mutual_exclusion k n s sched c :
  run sched (init k n s) = Some c →
  inside c = (if locked c then 1 else 0)%nat.
Proof.
  assert (inside (init k n s) = (if locked (init k n s) then 1 else 0)%nat)
    as Hinit.
  { unfold inside, init. simpl. induction k; simpl; [done|]. by rewrite IHk. }
  revert Hinit. generalize (init k n s). clear k n s.
  induction sched as [|[i now] sched IH]; intros c0 Hinv Hrun.
  - by simplify_eq/=.
  - simpl in Hrun. destruct (step i now c0) as [c1|] eqn:Hstep; [|done].
    eapply IH; [|done]. by eapply step_inside.
Qed.

(** *** The callers can all return: one after the other *)

Lemma list_insert_middle {A} (l1 l2 : list A) x y :
  <[length l1 := y]> (l1 ++ x :: l2) = l1 ++ y :: l2.
Proof.
  replace (length l1) with (length l1 + 0)%nat by lia.
  by rewrite insert_app_r.
Qed.

Lemma three_steps n now done rest s :
  run [(length done, now); (length done, now); (length done, now)]
      {| locked := false; store := s;
         callers := done ++ (n, AtWith) :: rest |}
  = Some {| locked := false;
            store := {| ttl := ttl s;
                        _challenges := delete n (_challenges s) |};
            callers :=
              done ++ (n, Returned (check (ttl s) (_challenges s !! n) now))
                   :: rest |}.
Proof.
  unfold run, step. simpl.
  rewrite list_lookup_middle by done. simpl.
  rewrite list_insert_middle, list_lookup_middle by done. simpl.
  rewrite list_insert_middle, list_lookup_middle by done. simpl.
  by rewrite list_insert_middle.
Qed.

(** A caller that runs alone does what the method does. *)
Lemma three_steps_validate_and_consume n now done rest s :
  run [(length done, now); (length done, now); (length done, now)]
      {| locked := false; store := s;
         callers := done ++ (n, AtWith) :: rest |}
  = Some {| locked := false;
            store := snd (ChallengeStore.validate_and_consume (PyStr n) now s);
            callers :=
              done ++ (n, Returned
                            (match fst (ChallengeStore.validate_and_consume
                                          (PyStr n) now s) with
                             | Return r => r
                             | Raise _ => PyNone
                             end)) :: rest |}.
Proof. by rewrite three_steps, validate_and_consume_str. Qed.

Lemma run_app sched1 sched2 c :
  run (sched1 ++ sched2) c = run sched1 c ≫= run sched2.
Proof.
  revert c. induction sched1 as [|[i now] sched1 IH]; intros c; [done|].
  simpl. destruct (step i now c); [apply IH|done].
Qed.

Lemma run_sequential n now j done s :
  forallb has_returned done = true →
  ∃ c', run (sequential (length done) j now)
            {| locked := false; store := s;
               callers := done ++ replicate j (n, AtWith) |} = Some c'
        ∧ all_returned c' = true.
Proof.
  revert done s. induction j as [|j IH]; intros done s Hdone.
  - eexists. split; [done|]. unfold all_returned. simpl.
    by rewrite app_nil_r.
  - change (sequential (length done) (S j) now)
      with ([(length done, now); (length done, now); (length done, now)]
            ++ sequential (S (length done)) j now).
    rewrite run_app. cbn [replicate]. rewrite three_steps. simpl.
    set (r := (n, Returned (check (ttl s) (_challenges s !! n) now))).
    destruct (IH (done ++ [r])
                {| ttl := ttl s; _challenges := delete n (_challenges s) |})
      as (c' & Hrun & Hall).
    { rewrite forallb_app, Hdone. done. }
    exists c'. split; [|done].
    rewrite length_app, <- app_assoc in Hrun. simpl in Hrun.
    replace (S (length done)) with (length done + 1)%nat by lia. done.
Qed.

(** Some interleaving lets every caller return. *)
Lemma all_can_return k n s now :
  ∃ c, run (sequential 0 k now) (init k n s) = Some c ∧ all_returned c = true.
Proof. by apply (run_sequential n now k [] s). Qed.

End ConcurrentFacts.

(** ** The handler *)

Section handler_properties.

Context `{Libraries}.

Local Arguments caught_by : simpl never.

(** Symbolic execution of handler code. *)
Ltac unfold_handler :=
  unfold handle_one_request; unfold do_POST, try_except, send_error, _send_json,
    rfile_read, challenge_store_validate_and_consume, auth_result_set,
    lift, emit, get_globals, put_globals, mbind, M_bind, mret, M_ret.

Ltac destruct_innermost x :=
  lazymatch x with
  | context [match ?y with _ => _ end] => destruct_innermost y
  | context [if ?y then _ else _] => destruct_innermost y
  | _ => destruct x eqn:?
  end.

Ltac handler_cases :=
  repeat (simpl;
          match goal with
          | |- context [match ?x with _ => _ end] => destruct_innermost x
          | |- context [if ?x then _ else _] => destruct_innermost x
          end); simpl.

(** A handler leaves [HAS_CRYPTO], the public key and the TTL alone, and
    the only value it ever stores in the result cell is [True]. *)
Lemma do_POST_frame (self : Request) (now : Z) (g : module_state) :
  let r := do_POST self now g in
  HAS_CRYPTO (globals_of r) = HAS_CRYPTO g
  ∧ device_pubkey_pem (globals_of r) = device_pubkey_pem g
  ∧ ttl (challenge_store (globals_of r)) = ttl (challenge_store g)
  ∧ (auth_result (globals_of r) = auth_result g
     ∨ auth_result (globals_of r)
       = AuthResult.set (PyBool true) (auth_result g))
  ∧ Forall (λ e, ∀ v, e = AuthResultSet v → v = PyBool true) (trace_of r).
Proof.
  unfold_handler.
  handler_cases.
  all: try match goal with
           | Hc : ChallengeStore.validate_and_consume ?n ?t ?s = (_, ?c) |- _ =>
               pose proof (validate_and_consume_ttl s n t) as Httl;
               rewrite Hc in Httl; simpl in Httl
           end.
  all: split_and!; try done; try (by left); try (by right).
  all: repeat first [ apply List.Forall_nil
                    | apply List.Forall_cons; [intros; congruence|] ].
Qed.

Lemma path_eqb (self : Request) :
  path self = "/auth/response" →
  negb (String.eqb (path self) "/auth/response") = false.
Proof. intros ->. done. Qed.

Lemma path_neqb (self : Request) :
  path self ≠ "/auth/response" →
  negb (String.eqb (path self) "/auth/response") = true.
Proof. intros Hne. by destruct (String.eqb_spec (path self) "/auth/response"). Qed.

Lemma gtb_false (n : Z) : n ≤ 4096 → (n >? 4096) = false.
Proof. intros Hn. destruct (Z.gtb_spec n 4096); [lia|done]. Qed.

Lemma gtb_true (n : Z) : n > 4096 → (n >? 4096) = true.
Proof. intros Hn. destruct (Z.gtb_spec n 4096); [done|lia]. Qed.

(** Another path: 404, and nothing else happens. *)
Lemma do_POST_not_found (self : Request) (now : Z) (g : module_state) :
  path self ≠ "/auth/response" →
  do_POST self now g = Ran (Return tt) g [SendError 404 None].
Proof. intros Hp. unfold do_POST. by rewrite (path_neqb _ Hp). Qed.

(** A declared length above the limit: 413, and nothing else happens. *)
Lemma do_POST_too_large (self : Request) (now : Z) (g : module_state) n :
  path self = "/auth/response" →
  read_content_length self = Return n →
  n > 4096 →
  do_POST self now g = Ran (Return tt) g [SendError 413 None].
Proof.
  intros Hp Hn Hgt. unfold_handler.
  by rewrite (path_eqb _ Hp), Hn, (gtb_true _ Hgt).
Qed.

(** A header that [int] rejects. *)
Lemma do_POST_bad_length (self : Request) (now : Z) (g : module_state) e :
  path self = "/auth/response" →
  read_content_length self = Raise e →
  issubclass e ValueError = true →
  do_POST self now g
  = Ran (Return tt) g [SendError 400 (Some "Invalid request")].
Proof.
  intros Hp Hn He. unfold_handler.
  by rewrite (path_eqb _ Hp), Hn, (caught_by_ValueError _ He).
Qed.

(** A body that [json.loads] rejects. *)
Lemma do_POST_bad_json (self : Request) (now : Z) (g : module_state) n e :
  path self = "/auth/response" →
  read_content_length self = Return n →
  n ≤ 4096 →
  json_loads (read (rfile self) n) = Raise e →
  issubclass e ValueError = true →
  do_POST self now g
  = Ran (Return tt) g
      [RfileRead n; JsonLoads (read (rfile self) n);
       SendError 400 (Some "Invalid request")].
Proof.
  intros Hp Hn Hle Hj He. unfold_handler.
  rewrite (path_eqb _ Hp), Hn, (gtb_false _ Hle). simpl.
  rewrite Hj. simpl. by rewrite (caught_by_ValueError _ He).
Qed.

(** A field that is missing or falsy. *)
Lemma do_POST_missing (self : Request) (now : Z) (g : module_state) n fields :
  path self = "/auth/response" →
  read_content_length self = Return n →
  n ≤ 4096 →
  json_loads (read (rfile self) n) = Return (PyDict fields) →
  truthy (default PyNone (fields !! "nonce")) = false
  ∨ truthy (default PyNone (fields !! "signature")) = false →
  do_POST self now g
  = Ran (Return tt) g
      [RfileRead n; JsonLoads (read (rfile self) n);
       SendError 400 (Some "Missing nonce or signature")].
Proof.
  intros Hp Hn Hle Hj Hf. unfold_handler.
  rewrite (path_eqb _ Hp), Hn, (gtb_false _ Hle). simpl.
  rewrite Hj. simpl.
  by destruct Hf as [-> | ->]; rewrite ?orb_true_r.
Qed.

(** A body that parses to something else than a dictionary: the
    [AttributeError] of [payload.get] is not among the handled classes. *)
Lemma do_POST_not_a_dict (self : Request) (now : Z) (g : module_state) n payload :
  path self = "/auth/response" →
  read_content_length self = Return n →
  n ≤ 4096 →
  json_loads (read (rfile self) n) = Return payload →
  (∀ fields, payload ≠ PyDict fields) →
  do_POST self now g
  = Ran (Raise AttributeError) g
      [RfileRead n; JsonLoads (read (rfile self) n)].
Proof.
  intros Hp Hn Hle Hj Hd. unfold_handler.
  rewrite (path_eqb _ Hp), Hn, (gtb_false _ Hle). simpl.
  rewrite Hj. by destruct payload; try done; destruct (Hd d).
Qed.

(** The nonce is not live: 403, after the lookup has removed what was
    there. *)
Lemma do_POST_bad_challenge (self : Request) (now : Z) (g : module_state)
    n fields nonce signature_b64 store' :
  path self = "/auth/response" →
  read_content_length self = Return n →
  n ≤ 4096 →
  json_loads (read (rfile self) n) = Return (PyDict fields) →
  fields !! "nonce" = Some nonce → truthy nonce = true →
  fields !! "signature" = Some signature_b64 →
  truthy signature_b64 = true →
  ChallengeStore.validate_and_consume nonce now (challenge_store g)
  = (Return PyNone, store') →
  do_POST self now g
  = Ran (Return tt) (with_store g store')
      [RfileRead n; JsonLoads (read (rfile self) n);
       ValidateAndConsume nonce;
       SendError 403 (Some "Invalid or expired challenge")].
Proof.
  intros Hp Hn Hle Hj Hnonce Htn Hsig Hts Hvac. unfold_handler.
  rewrite (path_eqb _ Hp), Hn, (gtb_false _ Hle). simpl.
  rewrite Hj. simpl. rewrite Hnonce, Hsig. simpl. rewrite Htn, Hts. simpl.
  by rewrite Hvac.
Qed.

(** The signature does not decode: the nonce has been looked up, and
    consumed, before. *)
Lemma do_POST_bad_base64 (self : Request) (now : Z) (g : module_state)
    n fields nonce signature_b64 payload store' e :
  path self = "/auth/response" →
  read_content_length self = Return n →
  n ≤ 4096 →
  json_loads (read (rfile self) n) = Return (PyDict fields) →
  fields !! "nonce" = Some nonce → truthy nonce = true →
  fields !! "signature" = Some signature_b64 →
  truthy signature_b64 = true →
  ChallengeStore.validate_and_consume nonce now (challenge_store g)
  = (Return payload, store') →
  payload ≠ PyNone →
  b64decode signature_b64 = Raise e →
  issubclass e ValueError = true →
  do_POST self now g
  = Ran (Return tt) (with_store g store')
      [RfileRead n; JsonLoads (read (rfile self) n);
       ValidateAndConsume nonce; B64Decode signature_b64;
       SendError 400 (Some "Invalid request")].
Proof.
  intros Hp Hn Hle Hj Hnonce Htn Hsig Hts Hvac Hpay Hb He. unfold_handler.
  rewrite (path_eqb _ Hp), Hn, (gtb_false _ Hle). simpl.
  rewrite Hj. simpl. rewrite Hnonce, Hsig. simpl. rewrite Htn, Hts. simpl.
  rewrite Hvac. simpl.
  assert (is_None payload = false) as -> by (by destruct payload).
  simpl. rewrite Hb. simpl. by rewrite (caught_by_ValueError _ He).
Qed.

(** A valid request: what the handler does hangs on the write of the
    acknowledgement.  The nonce is consumed in every case. *)
Lemma do_POST_valid (self : Request) (now : Z) (g : module_state)
    n fields nonce signature_b64 e message_bytes signature_bytes :
  valid_request g now self n fields nonce signature_b64 e
    message_bytes signature_bytes →
  let g1 := with_store g
              {| ttl := ttl (challenge_store g);
                 _challenges := delete nonce (_challenges (challenge_store g)) |} in
  let tr := [RfileRead n; JsonLoads (read (rfile self) n);
             ValidateAndConsume (PyStr nonce); B64Decode signature_b64;
             VerifySignature (device_pubkey_pem g) message_bytes
               signature_bytes] in
  do_POST self now g
  = match wfile_write self with
    | Return _ =>
        Ran (Return tt)
          (with_result g1 (AuthResult.set (PyBool true) (auth_result g)))
          (tr ++ [SendJson 200 status_ok; AuthResultSet (PyBool true)])
    | Raise e' =>
        if caught_by [JSONDecodeError; KeyError; ValueError] e'
        then Ran (Return tt) g1 (tr ++ [SendError 400 (Some "Invalid request")])
        else Ran (Raise e') g1 tr
    end.
Proof.
  intros [_ Hp Hn Hle Hj Hnonce Hne Hsig Hts Hreg Hfresh Hpay Hb Henc Hver].
  unfold_handler.
  rewrite (path_eqb _ Hp), Hn, (gtb_false _ Hle). simpl.
  rewrite Hj. simpl. rewrite Hnonce, Hsig. simpl. rewrite Hts. simpl.
  assert (String.eqb nonce "" = false) as ->.
  { by destruct (String.eqb_spec nonce ""). }
  simpl. rewrite validate_and_consume_str, Hreg. simpl.
  assert ((now - created e >? ttl (challenge_store g)) = false) as ->.
  { destruct (Z.gtb_spec (now - created e) (ttl (challenge_store g))); [lia|done]. }
  assert (is_None (data e) = false) as -> by (by destruct (data e)).
  simpl. rewrite Hb. simpl. rewrite Henc. simpl. rewrite Hver. simpl.
  destruct (wfile_write self) as [[]|e']; simpl; [done|].
  by destruct (caught_by _ e').
Qed.

(** A valid request whose acknowledgement is written: the acknowledgement
    goes out, then the result is set. *)
Lemma do_POST_accepts (self : Request) (now : Z) (g : module_state)
    n fields nonce signature_b64 e message_bytes signature_bytes :
  valid_request g now self n fields nonce signature_b64 e
    message_bytes signature_bytes →
  wfile_write self = Return tt →
  do_POST self now g
  = Ran (Return tt)
      (with_result
         (with_store g
            {| ttl := ttl (challenge_store g);
               _challenges := delete nonce (_challenges (challenge_store g)) |})
         (AuthResult.set (PyBool true) (auth_result g)))
      [RfileRead n; JsonLoads (read (rfile self) n);
       ValidateAndConsume (PyStr nonce); B64Decode signature_b64;
       VerifySignature (device_pubkey_pem g) message_bytes signature_bytes;
       SendJson 200 status_ok; AuthResultSet (PyBool true)].
Proof.
  intros Hv Hw. rewrite (do_POST_valid _ _ _ _ _ _ _ _ _ _ Hv).
  by rewrite Hw.
Qed.


Lemma py_get_Return (payload : pyval) (key : string) (v : pyval) :
  py_get payload key = Return v →
  ∃ fields, payload = PyDict fields ∧ v = default PyNone (fields !! key).
Proof. destruct payload; simpl; intros [= <-]; eauto. Qed.

Lemma default_truthy (o : option pyval) (v : pyval) :
  default PyNone o = v → truthy v = true → o = Some v.
Proof. destruct o; simpl; intros <-; done. Qed.

(** A request that is not valid leaves the result cell alone and is not
    answered 200. *)
Lemma handle_one_request_commit (self : Request) (now : Z) (g : module_state) :
  let r := handle_one_request self now g in
  is_accepted g now self
  ∨ (auth_result (globals_of r) = auth_result g
     ∧ Forall (λ e, ∀ v, e ≠ AuthResultSet v) (trace_of r)
     ∧ 200 ∉ responses (trace_of r)).
Proof.
  unfold_handler. handler_cases.
  all: try (right; split_and!;
            [ done
            | repeat first [ apply List.Forall_nil
                           | apply List.Forall_cons; [intros; congruence|] ]
            | intros Hin;
              repeat (apply elem_of_cons in Hin as [?|Hin]; [done|]);
              by apply elem_of_nil in Hin ]).
  left.
  repeat match goal with
         | Hg : py_get _ _ = Return _ |- _ =>
             apply py_get_Return in Hg as (? & ? & ?)
         end.
  simplify_eq.
  match goal with
  | Hf : negb _ || negb _ = false |- _ =>
      apply orb_false_elim in Hf as [Ht1%negb_false_iff Ht2%negb_false_iff]
  end.
  match goal with
  | Hc : ChallengeStore.validate_and_consume ?n _ _ = (Return ?p, _),
    Hn : is_None ?p = false |- _ =>
      pose proof (validate_and_consume_non_empty (challenge_store g) n now) as Hv;
      rewrite Hc in Hv; simpl in Hv; rewrite Hn in Hv;
      destruct (Hv eq_refl) as (k & e & Hk & He & Hfresh & Hdata)
  end.
  match goal with
  | Hb : negb ?b = false |- _ => apply negb_false_iff in Hb; subst b
  end.
  pose proof (default_truthy _ _ eq_refl Ht1) as Hnonce.
  pose proof (default_truthy _ _ eq_refl Ht2) as Hsig.
  rewrite Hk in *. simpl in *.
  split;
    [|match goal with Hw : wfile_write self = Return ?u |- _ => by destruct u end].
  eexists _, _, k, _, e, _, _.
  split; try eassumption.
  - by apply String.eqb_eq.
  - by destruct (String.eqb_spec (path self) "/auth/response").
  - match goal with Hg : (_ >? 4096) = false |- _ =>
      revert Hg; case Z.gtb_spec; [done|lia] end.
  - intros ->. done.
Qed.

(** A request that is accepted is answered 200, and the result is set. *)
Lemma accepted_answered_200 (self : Request) (now : Z) (g : module_state) :
  is_accepted g now self →
  let r := handle_one_request self now g in
  r = do_POST self now g
  ∧ outcome_of r = Return tt
  ∧ responses (trace_of r) = [200]
  ∧ AuthResultSet (PyBool true) ∈ trace_of r
  ∧ auth_result (globals_of r) = AuthResult.set (PyBool true) (auth_result g).
Proof.
  intros [(n & fields & nonce & sig & e & msg & sigb & Hv) Hw].
  unfold handle_one_request.
  rewrite (valid_command _ _ _ _ _ _ _ _ _ _ Hv). simpl.
  rewrite (do_POST_accepts _ _ _ _ _ _ _ _ _ _ Hv Hw). simpl.
  split_and!; try done. set_solver.
Qed.


End handler_properties.

(** ** The serving loop *)

Section serve_properties.

Context `{Libraries}.

Lemma handle_request_returns (a : arrival) (g : module_state) :
  outcome_of (handle_request a g) = Return tt.
Proof.
  destruct a as [|req now]; simpl; [done|].
  by destruct (handle_one_request req now g).
Qed.

Lemma handle_request_Connection req now g :
  handle_request (Connection req now) g
  = Ran (Return tt) (globals_of (handle_one_request req now g))
        (trace_of (handle_one_request req now g)).
Proof. simpl. by destruct (handle_one_request req now g). Qed.

Lemma serve_cons (deadline t : Z) (a : arrival) rest (g : module_state) :
  serve deadline ((t, a) :: rest) g
  = if (t <? deadline) && is_None (_result (auth_result g))
    then
      let r1 := handle_request a g in
      let r2 := serve deadline rest (globals_of r1) in
      Ran (outcome_of r2) (globals_of r2) (trace_of r1 ++ trace_of r2)
    else Ran (Return tt) g [].
Proof.
  simpl. unfold mbind, M_bind, get_globals, mret, M_ret. simpl.
  destruct ((t <? deadline) && is_None (_result (auth_result g))); [|done].
  pose proof (handle_request_returns a g) as Hret.
  destruct (handle_request a g) as [o g1 tr1]. simpl in *. subst o.
  by destruct (serve deadline rest g1).
Qed.

Lemma serve_returns (deadline : Z) sched (g : module_state) :
  outcome_of (serve deadline sched g) = Return tt.
Proof.
  revert g. induction sched as [|[t a] rest IH]; intros g; [done|].
  rewrite serve_cons. by destruct (_ && _); simpl.
Qed.

Lemma handle_one_request_frame (self : Request) (now : Z) (g : module_state) :
  let r := handle_one_request self now g in
  (auth_result (globals_of r) = auth_result g
   ∨ auth_result (globals_of r) = AuthResult.set (PyBool true) (auth_result g))
  ∧ Forall (λ e, ∀ v, e = AuthResultSet v → v = PyBool true) (trace_of r).
Proof.
  unfold handle_one_request.
  destruct (String.eqb (command self) "POST").
  - pose proof (do_POST_frame self now g) as (_ & _ & _ & Hr & Htr). done.
  - simpl. split; [by left|].
    apply List.Forall_cons; [intros; congruence|apply List.Forall_nil].
Qed.


(** Once the result is set the loop handles nothing. *)
Lemma serve_decided (deadline : Z) sched (g : module_state) :
  is_None (_result (auth_result g)) = false →
  serve deadline sched g = Ran (Return tt) g [].
Proof.
  intros Hres. destruct sched as [|[t a] rest]; [done|].
  rewrite serve_cons, Hres. by rewrite andb_false_r.
Qed.

Lemma handle_request_accepted req now (g : module_state) :
  is_accepted g now req →
  handle_request (Connection req now) g
  = Ran (Return tt) (globals_of (do_POST req now g))
        (trace_of (do_POST req now g))
  ∧ _result (auth_result (globals_of (do_POST req now g))) = PyBool true.
Proof.
  intros Ha. rewrite handle_request_Connection.
  destruct (accepted_answered_200 _ _ _ Ha) as (-> & _ & _ & _ & ->). done.
Qed.

Lemma handle_request_result (a : arrival) (g : module_state) :
  _result (auth_result g) = PyNone →
  (match a with
   | NoConnection => False
   | Connection req now => is_accepted g now req
   end
   ∧ _result (auth_result (globals_of (handle_request a g))) = PyBool true)
  ∨ (auth_result (globals_of (handle_request a g)) = auth_result g
     ∧ Forall (λ e, ∀ v, e ≠ AuthResultSet v) (trace_of (handle_request a g))
     ∧ 200 ∉ responses (trace_of (handle_request a g))).
Proof.
  intros Hres. destruct a as [|req now].
  { right. simpl. split_and!; [done|apply List.Forall_nil|apply not_elem_of_nil]. }
  destruct (handle_one_request_commit req now g) as [Hv | Hno].
  - left. split; [done|].
    destruct (handle_request_accepted req now g Hv) as [-> Hset]. done.
  - right. by rewrite handle_request_Connection.
Qed.

(** The loop ends with [True] in the result cell exactly when it comes to
    a request that it accepts before the deadline. *)
Lemma serve_accepts (deadline : Z) sched (g : module_state) :
  _result (auth_result g) = PyNone →
  _result (auth_result (globals_of (serve deadline sched g))) = PyBool true
  ↔ accepts deadline sched g.
Proof.
  revert g. induction sched as [|[t a] rest IH]; intros g Hres.
  - simpl. rewrite Hres. split; [discriminate|done].
  - rewrite serve_cons, Hres. simpl.
    destruct (Z.ltb_spec t deadline) as [Hlt|Hge]; simpl.
    + destruct (handle_request_result a g Hres) as [[Hv Hset] | (Hsame & _)].
      * rewrite serve_decided by (by rewrite Hset). simpl.
        split; [intros _; split; [done|by left]|done].
      * assert (_result (auth_result (globals_of (handle_request a g)))
                = PyNone) as Hnone by (by rewrite Hsame).
        rewrite (IH _ Hnone). split; [intros Hacc; split; [done|by right]|].
        intros [_ [Hv | Hacc]]; [|done].
        destruct a as [|req now]; [done|].
        destruct (handle_request_accepted req now g Hv) as [Heq Hset].
        rewrite Heq in Hnone. simpl in Hnone. congruence.
    + rewrite Hres. split; [discriminate|]. intros [Hlt _]. lia.
Qed.

(** What a loop accepts, a longer one accepts. *)
Lemma accepts_app (deadline : Z) sched1 sched2 (g : module_state) :
  accepts deadline sched1 g → accepts deadline (sched1 ++ sched2) g.
Proof.
  revert g. induction sched1 as [|[t a] rest IH]; intros g; [done|].
  simpl. intros [Hlt [Ha | Hacc]]; (split; [done|]); [by left|].
  right. by apply IH.
Qed.

(** The iterations that are complete at some reading are the first ones
    of the schedule. *)
Lemma complete_by_prefix (T : Z) (sched : list (Z * arrival * Z)) :
  ∃ rest, sched.*1 = complete_by T sched ++ rest.
Proof.
  induction sched as [|[i t_done] sched [rest IH]]; [by exists []|].
  simpl. destruct (t_done <=? T).
  - exists rest. simpl. by f_equal.
  - by eexists.
Qed.



Lemma accepts_complete_by (deadline T : Z) sched (g : module_state) :
  accepts deadline (complete_by T sched) g → accepts deadline sched.*1 g.
Proof.
  destruct (complete_by_prefix T sched) as [rest ->]. apply accepts_app.
Qed.


Lemma server_thread_returns (timeout t_start : Z) sched (T : Z)
    (g : module_state) :
  outcome_of (server_thread timeout t_start sched T g) = Return tt.
Proof.
  unfold server_thread. destruct (thread_deadline timeout t_start); [|done].
  apply serve_returns.
Qed.



Lemma join_returns (timeout t_call : Z) (t_end : option Z) :
  timeout ≤ TIMEOUT_MAX → ∃ T, join timeout t_call t_end = Return T.
Proof.
  intros Hle. unfold join.
  destruct (Z.ltb_spec TIMEOUT_MAX timeout); [lia|].
  destruct t_end; by eexists.
Qed.

Lemma join_raises (timeout t_call : Z) (t_end : option Z) :
  TIMEOUT_MAX < timeout → join timeout t_call t_end = Raise OverflowError.
Proof.
  intros Hlt. unfold join. by destruct (Z.ltb_spec TIMEOUT_MAX timeout); [|lia].
Qed.

(** [run_server], case by case: the port cannot be bound, [join] refuses
    the timeout, [join] returns. *)
Lemma run_server_not_bound (port : Z) (nonce : string)
    (challenge_json pubkey_pem : pyval) (timeout : Z) (can_bind : Z → bool)
    (t_add t_start t_join : Z) sched (g : module_state) e :
  HTTPServer can_bind port = Raise e →
  run_server port nonce challenge_json pubkey_pem timeout can_bind
    t_add t_start t_join sched g
  = Ran (Raise e) (registered nonce challenge_json pubkey_pem t_add g) [].
Proof.
  intros Hb. unfold run_server, mbind, M_bind, get_globals, put_globals, lift.
  simpl. by rewrite Hb.
Qed.

Lemma run_server_join_raises (port : Z) (nonce : string)
    (challenge_json pubkey_pem : pyval) (timeout : Z) (can_bind : Z → bool)
    (t_add t_start t_join : Z) sched (g : module_state) e :
  let g1 := registered nonce challenge_json pubkey_pem t_add g in
  let r := server_thread timeout t_start sched t_join g1 in
  HTTPServer can_bind port = Return tt →
  join (timeout + 2) t_join (thread_end timeout t_start sched g1) = Raise e →
  run_server port nonce challenge_json pubkey_pem timeout can_bind
    t_add t_start t_join sched g
  = Ran (Raise e) (globals_of r) (trace_of r).
Proof.
  intros g1 r Hb Hj. subst g1 r.
  unfold run_server, mbind, M_bind, get_globals, put_globals, lift, registered
    in *.
  simpl. rewrite Hb. simpl. rewrite Hj.
  match goal with |- context [server_thread ?a ?b ?s ?T ?g1] =>
    pose proof (server_thread_returns a b s T g1) as Hret;
    destruct (server_thread a b s T g1) as [o g2 tr]
  end.
  simpl in *. subst o. by rewrite app_nil_r.
Qed.

Lemma run_server_joined (port : Z) (nonce : string)
    (challenge_json pubkey_pem : pyval) (timeout : Z) (can_bind : Z → bool)
    (t_add t_start t_join : Z) sched (g : module_state) t_return :
  let g1 := registered nonce challenge_json pubkey_pem t_add g in
  let r := server_thread timeout t_start sched t_return g1 in
  HTTPServer can_bind port = Return tt →
  join (timeout + 2) t_join (thread_end timeout t_start sched g1)
  = Return t_return →
  run_server port nonce challenge_json pubkey_pem timeout can_bind
    t_add t_start t_join sched g
  = Ran (Return (is_True (_result (auth_result (globals_of r)))))
        (globals_of r) (trace_of r).
Proof.
  intros g1 r Hb Hj. subst g1 r.
  unfold run_server, mbind, M_bind, get_globals, put_globals, lift, registered,
    mret, M_ret in *.
  simpl. rewrite Hb. simpl. rewrite Hj.
  match goal with |- context [server_thread ?a ?b ?s ?T ?g1] =>
    pose proof (server_thread_returns a b s T g1) as Hret;
    destruct (server_thread a b s T g1) as [o g2 tr]
  end.
  simpl in *. subst o. by rewrite app_nil_r.
Qed.

(** [run_server] raises or returns, and what it leaves is what the
    thread has left at some reading. *)
Lemma run_server_cases (port : Z) (nonce : string)
    (challenge_json pubkey_pem : pyval) (timeout : Z) (can_bind : Z → bool)
    (t_add t_start t_join : Z) sched (g : module_state) :
  let g1 := registered nonce challenge_json pubkey_pem t_add g in
  let r := run_server port nonce challenge_json pubkey_pem timeout can_bind
             t_add t_start t_join sched g in
  (∃ e, HTTPServer can_bind port = Raise e ∧ r = Ran (Raise e) g1 [])
  ∨ (HTTPServer can_bind port = Return tt
     ∧ ∃ T, let r1 := server_thread timeout t_start sched T g1 in
            globals_of r = globals_of r1
            ∧ trace_of r = trace_of r1
            ∧ ((TIMEOUT_MAX < timeout + 2 ∧ T = t_join
                ∧ outcome_of r = Raise OverflowError)
               ∨ (timeout + 2 ≤ TIMEOUT_MAX
                  ∧ join (timeout + 2) t_join
                      (thread_end timeout t_start sched g1) = Return T
                  ∧ outcome_of r
                    = Return (is_True (_result (auth_result (globals_of r1))))))).
Proof.
  intros g1 r. subst r.
  destruct (HTTPServer can_bind port) as [[]|e] eqn:Hb.
  - right. split; [done|].
    destruct (Z.ltb_spec TIMEOUT_MAX (timeout + 2)) as [Hlt|Hle].
    + exists t_join.
      rewrite (run_server_join_raises _ _ _ _ _ _ _ _ _ _ _ OverflowError Hb)
        by (by apply join_raises).
      split_and!; try done. by left.
    + destruct (join_returns (timeout + 2) t_join
                  (thread_end timeout t_start sched g1) Hle) as [T HT].
      exists T.
      rewrite (run_server_joined _ _ _ _ _ _ _ _ _ _ _ T Hb HT).
      split_and!; try done. by right.
  - left. exists e. split; [done|]. by apply run_server_not_bound.
Qed.

End serve_properties.

(** ** verify_signature *)

Section verify_properties.

Context `{Libraries}.

Lemma verify_signature_returns (has_crypto : bool) (pubkey_pem : pyval)
    (message_bytes signature_bytes : bytes) :
  ∃ b, verify_signature has_crypto pubkey_pem message_bytes signature_bytes
       = Return b.
Proof.
  unfold verify_signature. destruct has_crypto; simpl; [|by eexists].
  destruct (verify_signature_try _ _ _) as [b|e]; [by eexists|].
  rewrite issubclass_Exception. by eexists.
Qed.

Lemma verify_signature_raise (has_crypto : bool) (pubkey_pem : pyval)
    (message_bytes signature_bytes : bytes) e :
  verify_signature_try pubkey_pem message_bytes signature_bytes = Raise e →
  verify_signature has_crypto pubkey_pem message_bytes signature_bytes
  = Return false.
Proof.
  intros He. unfold verify_signature. destruct has_crypto; simpl; [|done].
  by rewrite He, issubclass_Exception.
Qed.

Lemma verify_signature_true (has_crypto : bool) (pubkey_pem : pyval)
    (message_bytes signature_bytes : bytes) :
  verify_signature has_crypto pubkey_pem message_bytes signature_bytes
  = Return true →
  has_crypto = true
  ∧ import_cryptography = Return tt
  ∧ ∃ pem key,
      py_encode pubkey_pem = Return pem
      ∧ ((load_pem_public_key pem = Return (Ed25519PublicKey key)
          ∧ ed25519_verify key signature_bytes message_bytes = Return tt)
         ∨ (load_pem_public_key pem = Return (EllipticCurvePublicKey key)
            ∧ ecdsa_sha256_verify key signature_bytes message_bytes
              = Return tt)).
Proof.
  unfold verify_signature, verify_signature_try.
  destruct has_crypto; simpl; [|done].
  destruct import_cryptography as [[]|e] eqn:Himp; simpl;
    [|by rewrite issubclass_Exception].
  destruct (py_encode pubkey_pem) as [pem|e] eqn:Hpem; simpl;
    [|by rewrite issubclass_Exception].
  destruct (load_pem_public_key pem) as [[key|key|key]|e] eqn:Hload; simpl;
    [| | |by rewrite issubclass_Exception].
  - destruct (ed25519_verify key signature_bytes message_bytes) as [[]|e]
      eqn:Hv; simpl; [|by rewrite issubclass_Exception].
    intros _. split_and!; [done..|]. exists pem, key. split; [done|]. by left.
  - destruct (ecdsa_sha256_verify key signature_bytes message_bytes) as [[]|e]
      eqn:Hv; simpl; [|by rewrite issubclass_Exception].
    intros _. split_and!; [done..|]. exists pem, key. split; [done|]. by right.
  - done.
Qed.

End verify_properties.

(** * Main results *)

(** C1.  Single use.  In a sequence of calls on the store that do not
    register the nonce [k] again, at any times and with any other nonces,
    at most one call of [validate_and_consume] with [k] is handed a
    payload, and once a call with a nonce has been handed one, every later
    call with that nonce returns [None].  When callers run the method at
    the same time, under the lock, at most one of them is handed the
    payload at every moment of every interleaving; exactly one is when the
    nonce is registered with a payload and stays within its TTL during the
    run; and the callers can always all return. *)
Theorem single_use :
  (∀ (s : ChallengeStore) (k : string) (calls : list call),
     Forall (not_added k) calls →
     (successes k calls (fst (run_calls calls s)) ≤ 1)%nat)
  ∧ (∀ (s : ChallengeStore) (k : string) (now : Z)
       (calls : list call) (i : nat) (now' : Z),
       non_empty (fst (ChallengeStore.validate_and_consume (PyStr k) now s))
       = true →
       Forall (not_added k) calls →
       calls !! i = Some (CallConsume (PyStr k) now') →
       fst (run_calls calls
              (snd (ChallengeStore.validate_and_consume (PyStr k) now s))) !! i
       = Some (Return PyNone))
  ∧ (∀ (s : ChallengeStore) (nonce : pyval) (now : Z),
       non_empty (fst (ChallengeStore.validate_and_consume nonce now s)) = true →
       ∃ k, nonce = PyStr k)
  ∧ (∀ (k : nat) (n : string) (s : ChallengeStore) sched c,
       Concurrent.run sched (Concurrent.init k n s) = Some c →
       (Concurrent.winners c ≤ 1)%nat)
  ∧ (∀ (k : nat) (n : string) (s : ChallengeStore) (e : entry) sched c,
       (0 < k)%nat →
       _challenges s !! n = Some e →
       data e ≠ PyNone →
       Concurrent.fresh_clock e (ttl s) sched →
       Concurrent.run sched (Concurrent.init k n s) = Some c →
       Concurrent.all_returned c = true →
       Concurrent.winners c = 1%nat)
  ∧ (∀ (k : nat) (n : string) (s : ChallengeStore) (now : Z),
       ∃ c, Concurrent.run (Concurrent.sequential 0 k now)
              (Concurrent.init k n s) = Some c
            ∧ Concurrent.all_returned c = true).
Proof.
  split_and!.
  - intros s k calls. apply successes_at_most_one.
  - intros s k now calls i now' _ Hadd Hi.
    eapply run_calls_absent; [done| |done].
    apply validate_and_consume_removes.
  - intros s nonce now Hwin.
    destruct (validate_and_consume_non_empty _ _ _ Hwin) as (k & e & -> & _).
    by exists k.
  - intros k n s sched c. apply ConcurrentFacts.at_most_one_winner.
  - intros k n s e sched c. apply ConcurrentFacts.exactly_one_winner.
  - intros k n s now. apply ConcurrentFacts.all_can_return.
Qed.

(** The examples that follow run the server on the stand-in libraries. *)
Import TestLibraries.

(** Three callers race for a fresh nonce: the interleaving runs to the
    end and one of them wins. *)
Lemma single_use_witness :
  ∃ c, Concurrent.run Scenarios.race_schedule
         (Concurrent.init 3 "race_nonce" Scenarios.race_store) = Some c
       ∧ Concurrent.all_returned c = true
       ∧ Concurrent.winners c = 1%nat.
Proof.
  eexists. split; [vm_compute; reflexivity|]. split; [reflexivity|].
  destruct single_use as (_ & _ & _ & _ & Hone & _).
  eapply (Hone 3%nat "race_nonce" Scenarios.race_store
            (Entry (PyDict {[ "cmd" := PyStr "race" ]}) 0)
            Scenarios.race_schedule).
  - lia.
  - reflexivity.
  - discriminate.
  - unfold Concurrent.fresh_clock, Scenarios.race_schedule.
    repeat (apply List.Forall_cons; [simpl; lia|]). apply List.Forall_nil.
  - vm_compute. reflexivity.
  - reflexivity.
Defined.

(** C4.  Expiry.  A call on a present entry removes it; it returns [None]
    when the TTL has run out, so that no later call can get the payload,
    and the stored payload otherwise. *)
Theorem expired_not_retryable (s : ChallengeStore) (nonce : string)
    (payload : pyval) (createdAt t : Z) :
  _challenges s !! nonce = Some (Entry payload createdAt) →
  let r := ChallengeStore.validate_and_consume (PyStr nonce) t s in
  _challenges (snd r) !! nonce = None
  ∧ (∀ t', fst (ChallengeStore.validate_and_consume (PyStr nonce) t' (snd r))
           = Return PyNone)
  ∧ (t - createdAt > ttl s → fst r = Return PyNone)
  ∧ (t - createdAt ≤ ttl s → fst r = Return payload).
Proof.
  intros Hreg r. subst r. split_and!.
  - apply validate_and_consume_removes.
  - intros t'. apply validate_and_consume_empty, validate_and_consume_removes.
  - intros Hexp. rewrite validate_and_consume_str, Hreg. simpl.
    destruct (Z.gtb_spec (t - createdAt) (ttl s)); [done|lia].
  - intros Hfresh. rewrite validate_and_consume_str, Hreg. simpl.
    destruct (Z.gtb_spec (t - createdAt) (ttl s)); [lia|done].
Qed.

(** Registered at time 0 with a TTL of 1 and consumed at time 2: the call
    returns [None] and the entry is gone. *)
Lemma expired_not_retryable_witness :
  let r := ChallengeStore.validate_and_consume (PyStr "nonce_expire") 2
             Scenarios.expiry_store in
  fst r = Return PyNone ∧ _challenges (snd r) !! "nonce_expire" = None.
Proof.
  destruct (expired_not_retryable Scenarios.expiry_store "nonce_expire"
              (PyDict {[ "cmd" := PyStr "expired" ]}) 0 2)
    as (Hgone & _ & Hexp & _).
  - reflexivity.
  - split; [apply Hexp; simpl; lia|apply Hgone].
Defined.

(** C2, as the specification has it, fails: a second [set] overwrites what
    the first one stored. *)
Lemma write_once_counterexample :
  ¬ (∀ (v1 v2 : pyval) (cell : AuthResult),
       _result (AuthResult.set v2 (AuthResult.set v1 cell)) = v1).
Proof.
  intros Hclaim.
  specialize (Hclaim (PyBool true) (PyBool false) AuthResult.__init__).
  discriminate.
Qed.

(** C2, amended.  [set] stores its argument whatever the cell holds: after
    two calls the cell holds the value of the second, which is the value
    of the first when the two are equal.  The handler is the only caller
    and stores [True] only, so that a further commit leaves the cell as
    the first one left it. *)
Theorem set_last_write_wins `{Libraries} :
  (∀ (v1 v2 : pyval) (cell : AuthResult),
     AuthResult.set v2 (AuthResult.set v1 cell) = AuthResult.set v2 cell
     ∧ _result (AuthResult.set v2 (AuthResult.set v1 cell)) = v2
     ∧ _event (AuthResult.set v2 (AuthResult.set v1 cell)) = true)
  ∧ (∀ (self : Request) (now : Z) (g : module_state),
       let r := handle_one_request self now g in
       Forall (λ e, ∀ v, e = AuthResultSet v → v = PyBool true) (trace_of r)
       ∧ (auth_result (globals_of r) = auth_result g
          ∨ auth_result (globals_of r)
            = AuthResult.set (PyBool true) (auth_result g))).
Proof.
  split.
  - intros v1 v2 cell. done.
  - intros self now g r.
    destruct (handle_one_request_frame self now g) as [Hr Htr]. done.
Qed.

(** C3.  [verify_signature] always returns a boolean.  It returns [False]
    when [HAS_CRYPTO] is false, when the library cannot be imported, when
    the key cannot be encoded or parsed, when the key is of a family other
    than the two supported ones, and when the library rejects the
    signature; it returns [True] only when the library has parsed the key
    and accepted the signature. *)
Theorem verify_signature_fail_closed `{Libraries} (has_crypto : bool)
    (pubkey_pem : pyval) (message_bytes signature_bytes : bytes) :
  let verdict :=
    verify_signature has_crypto pubkey_pem message_bytes signature_bytes in
  (∃ b, verdict = Return b)
  ∧ (has_crypto = false → verdict = Return false)
  ∧ (∀ e, verify_signature_try pubkey_pem message_bytes signature_bytes
          = Raise e → verdict = Return false)
  ∧ (import_cryptography = Return tt →
     (∀ e, py_encode pubkey_pem = Raise e → verdict = Return false)
     ∧ (∀ pem e, py_encode pubkey_pem = Return pem →
                 load_pem_public_key pem = Raise e → verdict = Return false)
     ∧ (∀ pem key, py_encode pubkey_pem = Return pem →
                   load_pem_public_key pem = Return (OtherPublicKey key) →
                   verdict = Return false)
     ∧ (∀ pem key e, py_encode pubkey_pem = Return pem →
                     load_pem_public_key pem = Return (Ed25519PublicKey key) →
                     ed25519_verify key signature_bytes message_bytes
                     = Raise e →
                     verdict = Return false)
     ∧ (∀ pem key e, py_encode pubkey_pem = Return pem →
                     load_pem_public_key pem
                     = Return (EllipticCurvePublicKey key) →
                     ecdsa_sha256_verify key signature_bytes message_bytes
                     = Raise e →
                     verdict = Return false))
  ∧ (verdict = Return true →
     has_crypto = true
     ∧ import_cryptography = Return tt
     ∧ ∃ pem key,
         py_encode pubkey_pem = Return pem
         ∧ ((load_pem_public_key pem = Return (Ed25519PublicKey key)
             ∧ ed25519_verify key signature_bytes message_bytes = Return tt)
            ∨ (load_pem_public_key pem = Return (EllipticCurvePublicKey key)
               ∧ ecdsa_sha256_verify key signature_bytes message_bytes
                 = Return tt))).
Proof.
  intros verdict. subst verdict. split_and!.
  - apply verify_signature_returns.
  - intros ->. done.
  - intros e. apply verify_signature_raise.
  - intros Himp. split_and!.
    + intros e He. apply (verify_signature_raise _ _ _ _ e).
      unfold verify_signature_try. rewrite Himp. simpl. by rewrite He.
    + intros pem e Hpem He. apply (verify_signature_raise _ _ _ _ e).
      unfold verify_signature_try. rewrite Himp. simpl. rewrite Hpem. simpl.
      by rewrite He.
    + intros pem key Hpem Hkey. unfold verify_signature, verify_signature_try.
      rewrite Himp. simpl. rewrite Hpem. simpl. rewrite Hkey.
      by destruct has_crypto.
    + intros pem key e Hpem Hkey He. apply (verify_signature_raise _ _ _ _ e).
      unfold verify_signature_try. rewrite Himp. simpl. rewrite Hpem. simpl.
      rewrite Hkey. simpl. by rewrite He.
    + intros pem key e Hpem Hkey He. apply (verify_signature_raise _ _ _ _ e).
      unfold verify_signature_try. rewrite Himp. simpl. rewrite Hpem. simpl.
      rewrite Hkey. simpl. by rewrite He.
  - apply verify_signature_true.
Qed.

(** The placeholder key of the timeout test does not parse, a tampered
    signature is rejected, and nothing verifies without the library. *)
Lemma verify_signature_fail_closed_witness :
  verify_signature true (PyStr "unused") (TestLibraries.b "n1")
    (TestLibraries.b "n1") = Return false
  ∧ verify_signature true (PyStr "ec test key") (TestLibraries.b "n1")
      (TestLibraries.b "n0") = Return false
  ∧ verify_signature false (PyStr "ec test key") (TestLibraries.b "n1")
      (TestLibraries.b "n1") = Return false.
Proof.
  split_and!.
  - destruct (verify_signature_fail_closed true (PyStr "unused")
                (TestLibraries.b "n1") (TestLibraries.b "n1"))
      as (_ & _ & _ & Hlib & _).
    destruct (Hlib eq_refl) as (_ & Hload & _).
    by apply (Hload (TestLibraries.b "unused") ValueError).
  - destruct (verify_signature_fail_closed true (PyStr "ec test key")
                (TestLibraries.b "n1") (TestLibraries.b "n0"))
      as (_ & _ & _ & Hlib & _).
    destruct (Hlib eq_refl) as (_ & _ & _ & _ & Hec).
    by apply (Hec (TestLibraries.b "ec test key") (TestLibraries.b "k2")
                InvalidSignature).
  - destruct (verify_signature_fail_closed false (PyStr "ec test key")
                (TestLibraries.b "n1") (TestLibraries.b "n1"))
      as (_ & Hno & _).
    by apply Hno.
Defined.

(** C5, as the specification has it, fails: a signature that is not
    base64 is found out after the nonce has been consumed.  The request is
    answered 400 and the challenge is gone from the store. *)
Lemma malformed_no_mutation_counterexample :
  ¬ (∀ (L : Libraries) (g : module_state) (now : Z) (self : Request),
       path self = "/auth/response" →
       malformed self →
       responses (trace_of (do_POST self now g)) = [400]
       ∧ globals_of (do_POST self now g) = g).
Proof.
  intros Hclaim.
  destruct (Hclaim test_libraries g0 110 Scenarios.bad_base64_request)
    as [_ Hsame].
  - reflexivity.
  - eapply (bad_base64 _ 35
              (list_to_map [("nonce", PyStr "n1"); ("signature", PyStr "abc")])
              (PyStr "n1") (PyStr "abc") BinasciiError);
      try reflexivity; lia.
  - apply (f_equal (λ g, _challenges (challenge_store g) !! "n1")) in Hsame.
    vm_compute in Hsame. discriminate.
Qed.

(** C5, amended.  A body that [json.loads] rejects with a [ValueError], as
    it does with its [JSONDecodeError] for what is not JSON, and a JSON
    object without nonce or without signature, are answered 400 with the
    module state as it was.  A signature that [b64decode] rejects with a
    [ValueError], as it does with [binascii.Error] for a string that is
    not base64, is met after the lookup of the nonce: the store is left as
    [validate_and_consume] leaves it, with the entry of the nonce removed,
    the answer is 400 when the lookup handed out a payload and 403 when it
    did not, and the result cell is as it was. *)
Theorem malformed_request `{Libraries} (g : module_state) (now : Z)
    (self : Request) (n : Z) :
  path self = "/auth/response" →
  read_content_length self = Return n →
  n ≤ 4096 →
  let r := do_POST self now g in
  (∀ e, json_loads (read (rfile self) n) = Raise e →
        issubclass e ValueError = true →
        responses (trace_of r) = [400] ∧ globals_of r = g)
  ∧ (∀ fields,
       json_loads (read (rfile self) n) = Return (PyDict fields) →
       fields !! "nonce" = None ∨ fields !! "signature" = None →
       responses (trace_of r) = [400] ∧ globals_of r = g)
  ∧ (∀ fields nonce signature_b64 e payload store',
       json_loads (read (rfile self) n) = Return (PyDict fields) →
       fields !! "nonce" = Some nonce → truthy nonce = true →
       fields !! "signature" = Some signature_b64 →
       truthy signature_b64 = true →
       b64decode signature_b64 = Raise e →
       issubclass e ValueError = true →
       ChallengeStore.validate_and_consume nonce now (challenge_store g)
       = (Return payload, store') →
       globals_of r = with_store g store'
       ∧ auth_result (globals_of r) = auth_result g
       ∧ (∀ k, nonce = PyStr k → _challenges store' !! k = None)
       ∧ responses (trace_of r) = [if is_None payload then 403 else 400]).
Proof.
  intros Hp Hn Hle r. subst r. split_and!.
  - intros e Hj He. by rewrite (do_POST_bad_json _ _ _ _ e Hp Hn Hle Hj He).
  - intros fields Hj Hmiss.
    rewrite (do_POST_missing _ _ _ _ fields Hp Hn Hle Hj); [done|].
    by destruct Hmiss as [-> | ->]; [left|right].
  - intros fields nonce signature_b64 e payload store'
      Hj Hnonce Htn Hsig Hts Hb He Hvac.
    assert (∀ k, nonce = PyStr k → _challenges store' !! k = None) as Hgone.
    { intros k ->. rewrite validate_and_consume_str in Hvac.
      injection Hvac as _ <-. apply lookup_delete_eq. }
    destruct (is_None payload) eqn:Hpay.
    + assert (payload = PyNone) as -> by (by destruct payload).
      by rewrite (do_POST_bad_challenge _ _ _ _ _ _ _ _
                    Hp Hn Hle Hj Hnonce Htn Hsig Hts Hvac).
    + assert (payload ≠ PyNone) as Hne by (by intros ->).
      by rewrite (do_POST_bad_base64 _ _ _ _ _ _ _ _ _ _
                    Hp Hn Hle Hj Hnonce Htn Hsig Hts Hvac Hne Hb He).
Qed.

(** A body that is not JSON and a body without signature leave the
    challenge in the store; a signature that is not base64 consumes it. *)
Lemma malformed_request_witness :
  globals_of (do_POST Scenarios.not_json_request 110 g0) = g0
  ∧ globals_of (do_POST Scenarios.missing_signature_request 110 g0) = g0
  ∧ responses (trace_of (do_POST Scenarios.bad_base64_request 110 g0)) = [400]
  ∧ _challenges
      (challenge_store (globals_of (do_POST Scenarios.bad_base64_request 110 g0)))
      !! "n1" = None.
Proof.
  split_and!.
  - destruct (malformed_request g0 110 Scenarios.not_json_request 8)
      as (Hjson & _); [reflexivity|reflexivity|lia|].
    by destruct (Hjson JSONDecodeError).
  - destruct (malformed_request g0 110 Scenarios.missing_signature_request 15)
      as (_ & Hmiss & _); [reflexivity|reflexivity|lia|].
    destruct (Hmiss (list_to_map [("nonce", PyStr "n1")])) as [_ Hg];
      [reflexivity|by right|done].
  - destruct (malformed_request g0 110 Scenarios.bad_base64_request 35)
      as (_ & _ & Hb64); [reflexivity|reflexivity|lia|].
    destruct (Hb64
                (list_to_map [("nonce", PyStr "n1"); ("signature", PyStr "abc")])
                (PyStr "n1") (PyStr "abc") BinasciiError (PyStr "challenge")
                {| ttl := 30;
                   _challenges := delete "n1" (_challenges (challenge_store g0)) |})
      as (_ & _ & _ & Hresp); [reflexivity..|].
    exact Hresp.
  - destruct (malformed_request g0 110 Scenarios.bad_base64_request 35)
      as (_ & _ & Hb64); [reflexivity|reflexivity|lia|].
    destruct (Hb64
                (list_to_map [("nonce", PyStr "n1"); ("signature", PyStr "abc")])
                (PyStr "n1") (PyStr "abc") BinasciiError (PyStr "challenge")
                {| ttl := 30;
                   _challenges := delete "n1" (_challenges (challenge_store g0)) |})
      as (Hg & _ & Hgone & _); [reflexivity..|].
    rewrite Hg. by apply Hgone.
Defined.




(** C7, as the specification has it, fails: a GET of the endpoint is not
    answered 404. *)
Lemma other_requests_404_counterexample :
  ¬ (∀ (L : Libraries) (g : module_state) (now : Z) (self : Request),
       command self ≠ "POST" ∨ path self ≠ "/auth/response" →
       responses (trace_of (handle_one_request self now g)) = [404]).
Proof.
  intros Hclaim.
  assert (responses
            (trace_of (handle_one_request Scenarios.get_request 110 g0))
          = [404]) as Hresp.
  { apply Hclaim. left. discriminate. }
  vm_compute in Hresp. discriminate.
Qed.

(** C7, amended.  A POST to another path is answered 404, and nothing else
    happens.  A request with another method does not reach [do_POST]: the
    handler class has no method for it and the request is answered 501. *)
Theorem other_requests_rejected `{Libraries} (g : module_state) (now : Z)
    (self : Request) :
  (path self ≠ "/auth/response" →
   do_POST self now g = Ran (Return tt) g [SendError 404 None])
  ∧ (command self = "POST" → path self ≠ "/auth/response" →
     handle_one_request self now g = Ran (Return tt) g [SendError 404 None])
  ∧ (command self ≠ "POST" →
     handle_one_request self now g
     = Ran (Return tt) g
         [SendError 501 (Some (unsupported_method (command self)))]).
Proof.
  split_and!.
  - apply do_POST_not_found.
  - intros Hc Hp. unfold handle_one_request. rewrite Hc. simpl.
    by apply do_POST_not_found.
  - intros Hc. unfold handle_one_request.
    by destruct (String.eqb_spec (command self) "POST").
Qed.

Lemma other_requests_rejected_witness :
  handle_one_request Scenarios.wrong_path_request 110 g0
  = Ran (Return tt) g0 [SendError 404 None]
  ∧ handle_one_request Scenarios.get_request 110 g0
    = Ran (Return tt) g0 [SendError 501 (Some "Unsupported method ('GET')")].
Proof.
  split.
  - destruct (other_requests_rejected g0 110 Scenarios.wrong_path_request)
      as (_ & Hpost & _).
    apply Hpost; [reflexivity|discriminate].
  - destruct (other_requests_rejected g0 110 Scenarios.get_request)
      as (_ & _ & Hget).
    apply Hget. discriminate.
Defined.

(** C9.  The limit is tested on the declared length, with
    [content_length > 4096] only.  A request that declares a length of -1
    passes the test, and [rfile.read(-1)] reads the stream to its end: the
    five thousand bytes that the request sends are all read and given to
    [json.loads], and the answer is the 400 of a body that is not JSON,
    not 413.  The same body with its length declared is answered 413
    before anything is read. *)
Lemma negative_length_not_limited :
  length (rfile MoreScenarios.negative_length_request) = 5000%nat
  ∧ rfile MoreScenarios.negative_length_request
    = rfile Scenarios.oversized_request
  ∧ @read_content_length MoreScenarios.signed_libraries
      MoreScenarios.negative_length_request = Return (-1)
  ∧ @do_POST MoreScenarios.signed_libraries
      MoreScenarios.negative_length_request 110 g0
    = Ran (Return tt) g0
        [RfileRead (-1); JsonLoads (repeat Byte.x78 5000);
         SendError 400 (Some "Invalid request")]
  ∧ @do_POST MoreScenarios.signed_libraries
      Scenarios.oversized_request 110 g0
    = Ran (Return tt) g0 [SendError 413 None].
Proof. split_and!; vm_compute; reflexivity. Qed.

(** C10.  A nonce or a signature that is falsy, the empty string for one,
    is rejected as a missing one is: 400 with the same message, before the
    store is looked at, and with the module state as it was. *)
Theorem falsy_field_rejected `{Libraries} (g : module_state) (now : Z)
    (self : Request) (n : Z) (fields : gmap string pyval) :
  path self = "/auth/response" →
  read_content_length self = Return n →
  n ≤ 4096 →
  json_loads (read (rfile self) n) = Return (PyDict fields) →
  let rejected :=
    do_POST self now g
    = Ran (Return tt) g
        [RfileRead n; JsonLoads (read (rfile self) n);
         SendError 400 (Some "Missing nonce or signature")] in
  (truthy (default PyNone (fields !! "nonce")) = false
   ∨ truthy (default PyNone (fields !! "signature")) = false → rejected)
  ∧ (fields !! "nonce" = None ∨ fields !! "signature" = None → rejected)
  ∧ (fields !! "nonce" = Some (PyStr "")
     ∨ fields !! "signature" = Some (PyStr "") → rejected).
Proof.
  intros Hp Hn Hle Hj rejected. subst rejected. split_and!.
  - by apply do_POST_missing.
  - intros Hmiss. apply (do_POST_missing _ _ _ _ fields); try done.
    by destruct Hmiss as [-> | ->]; [left|right].
  - intros Hempty. apply (do_POST_missing _ _ _ _ fields); try done.
    by destruct Hempty as [-> | ->]; [left|right].
Qed.

(** A challenge registered under the empty string stays in the store
    when a request names it. *)
Lemma falsy_field_rejected_witness :
  responses (trace_of (do_POST Scenarios.empty_nonce_request 110 Scenarios.g_empty))
  = [400]
  ∧ globals_of (do_POST Scenarios.empty_nonce_request 110 Scenarios.g_empty)
    = Scenarios.g_empty.
Proof.
  destruct (falsy_field_rejected Scenarios.g_empty 110
              Scenarios.empty_nonce_request 34
              (list_to_map [("nonce", PyStr ""); ("signature", PyStr "bjE=")]))
    as (_ & _ & Hempty); [reflexivity|reflexivity|lia|reflexivity|].
  rewrite Hempty; [by split|by left].
Defined.



(** * Further properties *)

(** ** The store *)

(** X1.  A challenge that is registered and consumed within its TTL comes
    back as it was stored, and the store is left without the nonce: as it
    was before the registration when the nonce was not in it. *)
Theorem add_then_consume (s : ChallengeStore) (k : string) (payload : pyval)
    (t0 t : Z) :
  t - t0 ≤ ttl s →
  ChallengeStore.validate_and_consume (PyStr k) t
    (ChallengeStore.add k payload t0 s)
  = (Return payload,
     {| ttl := ttl s; _challenges := delete k (_challenges s) |})
  ∧ (_challenges s !! k = None →
     snd (ChallengeStore.validate_and_consume (PyStr k) t
            (ChallengeStore.add k payload t0 s)) = s).
Proof.
  intros Hfresh. rewrite validate_and_consume_str. simpl.
  rewrite lookup_insert_eq, delete_insert_eq. simpl.
  destruct (Z.gtb_spec (t - t0) (ttl s)); [lia|]. split; [done|].
  intros Hk. rewrite delete_id by done. by destruct s.
Qed.

Lemma add_then_consume_witness :
  ChallengeStore.validate_and_consume (PyStr "nonce1") 5
    (ChallengeStore.add "nonce1" (PyStr "test") 0 (ChallengeStore.__init__ 30))
  = (Return (PyStr "test"), ChallengeStore.__init__ 30).
Proof.
  destruct (add_then_consume (ChallengeStore.__init__ 30) "nonce1"
              (PyStr "test") 0 5) as [Hret Hstore]; [simpl; lia|].
  rewrite Hret. f_equal.
Defined.

(** X2.  Registering a nonce again replaces what was stored: the payload
    and the creation time of the first registration are lost, so that the
    TTL runs from the second one. *)
Theorem add_overwrites (s : ChallengeStore) (k : string) (d1 d2 : pyval)
    (t1 t2 t : Z) :
  ChallengeStore.add k d2 t2 (ChallengeStore.add k d1 t1 s)
  = ChallengeStore.add k d2 t2 s
  ∧ fst (ChallengeStore.validate_and_consume (PyStr k) t
           (ChallengeStore.add k d2 t2 (ChallengeStore.add k d1 t1 s)))
    = Return (if t - t2 >? ttl s then PyNone else d2).
Proof.
  assert (ChallengeStore.add k d2 t2 (ChallengeStore.add k d1 t1 s)
          = ChallengeStore.add k d2 t2 s) as Heq.
  { unfold ChallengeStore.add. simpl. by rewrite insert_insert_eq. }
  split; [done|]. rewrite Heq, validate_and_consume_str. simpl.
  by rewrite lookup_insert_eq.
Qed.

Lemma run_calls_other_nonce k calls s :
  Forall (other_nonce k) calls →
  _challenges (snd (run_calls calls s)) !! k = _challenges s !! k.
Proof.
  revert s. induction calls as [|c calls IH]; intros s Hother; [done|].
  apply Forall_cons in Hother as [Hc Hother].
  rewrite run_calls_cons. simpl. rewrite IH by done.
  destruct c as [k' payload t|nonce t]; simpl in *.
  - by rewrite lookup_insert_ne.
  - destruct nonce as [| | | |k'| |]; try done.
    rewrite validate_and_consume_str. simpl.
    apply lookup_delete_ne. congruence.
Qed.

(** X3.  Calls that do not name a nonce leave its entry as it is, whatever
    the other nonces, the values passed as nonces and the times of the
    calls: nothing but a call with the nonce itself removes an entry, and
    an expired entry stays in the store until then. *)
Theorem other_calls_leave_entry (k : string) (calls : list call)
    (s : ChallengeStore) :
  Forall (other_nonce k) calls →
  _challenges (snd (run_calls calls s)) !! k = _challenges s !! k
  ∧ ttl (snd (run_calls calls s)) = ttl s.
Proof.
  intros Hother. split; [by apply run_calls_other_nonce|].
  clear Hother. revert s. induction calls as [|c calls IH]; intros s; [done|].
  rewrite run_calls_cons. simpl. rewrite IH.
  destruct c as [k' payload t|nonce t]; [done|].
  apply validate_and_consume_ttl.
Qed.

(** An entry with a TTL of 1 is still there at time 1000, after calls
    with other nonces, with a number and with a list. *)
Lemma other_calls_leave_entry_witness :
  _challenges
    (snd (run_calls [CallConsume (PyStr "other") 500;
                     CallAdd "other" PyNone 600;
                     CallConsume (PyInt 7) 700;
                     CallConsume (PyList [PyStr "nonce_expire"]) 1000]
            Scenarios.expiry_store))
    !! "nonce_expire"
  = Some (Entry (PyDict {[ "cmd" := PyStr "expired" ]}) 0).
Proof.
  destruct (other_calls_leave_entry "nonce_expire"
              [CallConsume (PyStr "other") 500;
               CallAdd "other" PyNone 600;
               CallConsume (PyInt 7) 700;
               CallConsume (PyList [PyStr "nonce_expire"]) 1000]
              Scenarios.expiry_store) as [Hk _].
  - repeat (apply List.Forall_cons; [simpl; congruence|]).
    apply List.Forall_nil.
  - rewrite Hk. reflexivity.
Defined.

(** ** The handler *)

Ltac handler_unfold :=
  unfold handle_one_request; unfold do_POST, try_except, send_error,
    _send_json, rfile_read, challenge_store_validate_and_consume,
    auth_result_set, lift, emit, get_globals, put_globals, mbind, M_bind,
    mret, M_ret.

Ltac innermost_scrutinee x :=
  lazymatch x with
  | context [match ?y with _ => _ end] => innermost_scrutinee y
  | context [if ?y then _ else _] => innermost_scrutinee y
  | _ => destruct x eqn:?
  end.

Ltac handler_split :=
  repeat (simpl;
          match goal with
          | |- context [match ?x with _ => _ end] => innermost_scrutinee x
          | |- context [if ?x then _ else _] => innermost_scrutinee x
          end); simpl.

Section handler_further.

Context `{Libraries}.

Local Arguments caught_by : simpl never.

(** A nonce that is not in the store: 403, and the module state is as it
    was. *)
Lemma do_POST_unknown_nonce (self : Request) (now : Z) (g : module_state)
    n fields k signature_b64 :
  path self = "/auth/response" →
  read_content_length self = Return n →
  n ≤ 4096 →
  json_loads (read (rfile self) n) = Return (PyDict fields) →
  fields !! "nonce" = Some (PyStr k) → k ≠ "" →
  fields !! "signature" = Some signature_b64 →
  truthy signature_b64 = true →
  _challenges (challenge_store g) !! k = None →
  do_POST self now g
  = Ran (Return tt) g
      [RfileRead n; JsonLoads (read (rfile self) n);
       ValidateAndConsume (PyStr k);
       SendError 403 (Some "Invalid or expired challenge")].
Proof.
  intros Hp Hn Hle Hj Hnonce Hne Hsig Hts Hk.
  rewrite (do_POST_bad_challenge self now g n fields (PyStr k) signature_b64
             (challenge_store g)); try done.
  - f_equal. by destruct g.
  - simpl. by destruct (String.eqb_spec k "").
  - rewrite validate_and_consume_str, Hk. simpl.
    rewrite delete_id by done. by destruct (challenge_store g).
Qed.

(** The signature decodes and does not verify: 403, after the nonce has
    been consumed. *)
Lemma do_POST_bad_signature (self : Request) (now : Z) (g : module_state)
    n fields k signature_b64 e message_bytes signature_bytes :
  path self = "/auth/response" →
  read_content_length self = Return n →
  n ≤ 4096 →
  json_loads (read (rfile self) n) = Return (PyDict fields) →
  fields !! "nonce" = Some (PyStr k) → k ≠ "" →
  fields !! "signature" = Some signature_b64 →
  truthy signature_b64 = true →
  _challenges (challenge_store g) !! k = Some e →
  now - created e ≤ ttl (challenge_store g) →
  data e ≠ PyNone →
  b64decode signature_b64 = Return signature_bytes →
  str_encode k = Return message_bytes →
  verify_signature (HAS_CRYPTO g) (device_pubkey_pem g)
    message_bytes signature_bytes = Return false →
  do_POST self now g
  = Ran (Return tt)
      (with_store g
         {| ttl := ttl (challenge_store g);
            _challenges := delete k (_challenges (challenge_store g)) |})
      [RfileRead n; JsonLoads (read (rfile self) n);
       ValidateAndConsume (PyStr k); B64Decode signature_b64;
       VerifySignature (device_pubkey_pem g) message_bytes signature_bytes;
       SendError 403 (Some "Invalid signature")].
Proof.
  intros Hp Hn Hle Hj Hnonce Hne Hsig Hts Hreg Hfresh Hpay Hb Henc Hver.
  handler_unfold.
  rewrite (path_eqb _ Hp), Hn, (gtb_false _ Hle). simpl.
  rewrite Hj. simpl. rewrite Hnonce, Hsig. simpl. rewrite Hts. simpl.
  assert (String.eqb k "" = false) as ->.
  { by destruct (String.eqb_spec k ""). }
  simpl. rewrite validate_and_consume_str, Hreg. simpl.
  assert ((now - created e >? ttl (challenge_store g)) = false) as ->.
  { destruct (Z.gtb_spec (now - created e) (ttl (challenge_store g))); [lia|done]. }
  assert (is_None (data e) = false) as -> by (by destruct (data e)).
  simpl. rewrite Hb. simpl. rewrite Henc. simpl. by rewrite Hver.
Qed.

Lemma validate_and_consume_store (s : ChallengeStore) (nonce : pyval) now :
  snd (ChallengeStore.validate_and_consume nonce now s) = s
  ∨ ∃ k, snd (ChallengeStore.validate_and_consume nonce now s)
         = {| ttl := ttl s; _challenges := delete k (_challenges s) |}.
Proof.
  destruct nonce as [| | | |k| |]; try (left; by destruct s).
  right. exists k. by rewrite validate_and_consume_str.
Qed.

(** The store of the module state, after a request, is the store before
    it or the store before it without one entry. *)
Lemma handle_one_request_store (self : Request) (now : Z) (g : module_state) :
  let r := handle_one_request self now g in
  challenge_store (globals_of r) = challenge_store g
  ∨ ∃ k, challenge_store (globals_of r)
         = {| ttl := ttl (challenge_store g);
              _challenges := delete k (_challenges (challenge_store g)) |}.
Proof.
  handler_unfold. handler_split.
  all: try (by left).
  all: match goal with
       | Hc : ChallengeStore.validate_and_consume ?n ?t ?s = (_, ?c) |- _ =>
           pose proof (validate_and_consume_store s n t) as Hs;
           rewrite Hc in Hs; exact Hs
       end.
Qed.

(** What the handler does to the rest of the module state. *)
Lemma handle_one_request_rest (self : Request) (now : Z) (g : module_state) :
  let r := handle_one_request self now g in
  HAS_CRYPTO (globals_of r) = HAS_CRYPTO g
  ∧ device_pubkey_pem (globals_of r) = device_pubkey_pem g.
Proof.
  unfold handle_one_request. destruct (String.eqb (command self) "POST").
  - by destruct (do_POST_frame self now g) as (? & ? & _).
  - done.
Qed.

(** After a valid request, its nonce is out of the store, whether the
    acknowledgement could be written or not. *)
Lemma accepted_nonce_gone (self : Request) (now : Z) (g : module_state)
    n fields nonce signature_b64 e message_bytes signature_bytes :
  valid_request g now self n fields nonce signature_b64 e
    message_bytes signature_bytes →
  _challenges (challenge_store (globals_of (do_POST self now g))) !! nonce
  = None.
Proof.
  intros Hv. rewrite (do_POST_valid _ _ _ _ _ _ _ _ _ _ Hv).
  destruct (wfile_write self) as [[]|e']; [apply lookup_delete_eq|].
  destruct (caught_by _ e'); apply lookup_delete_eq.
Qed.


End handler_further.




(** X6.  Replay.  Once a valid request has been accepted, every request
    that carries its nonce, the same request for one, is answered 403 and
    leaves the module state as it is. *)
Theorem replay_rejected `{Libraries} (self : Request) (now : Z) (g : module_state)
    n fields nonce signature_b64 e message_bytes signature_bytes :
  valid_request g now self n fields nonce signature_b64 e
    message_bytes signature_bytes →
  let g1 := globals_of (do_POST self now g) in
  (∀ (self' : Request) (now' : Z) n' fields' signature_b64',
     path self' = "/auth/response" →
     read_content_length self' = Return n' →
     n' ≤ 4096 →
     json_loads (read (rfile self') n') = Return (PyDict fields') →
     fields' !! "nonce" = Some (PyStr nonce) →
     fields' !! "signature" = Some signature_b64' →
     truthy signature_b64' = true →
     do_POST self' now' g1
     = Ran (Return tt) g1
         [RfileRead n'; JsonLoads (read (rfile self') n');
          ValidateAndConsume (PyStr nonce);
          SendError 403 (Some "Invalid or expired challenge")])
  ∧ (∀ now', responses (trace_of (do_POST self now' g1)) = [403]
             ∧ globals_of (do_POST self now' g1) = g1).
Proof.
  intros Hv g1.
  pose proof (accepted_nonce_gone _ _ _ _ _ _ _ _ _ _ Hv) as Hgone.
  fold g1 in Hgone.
  assert (∀ (self' : Request) (now' : Z) n' fields' signature_b64',
     path self' = "/auth/response" →
     read_content_length self' = Return n' →
     n' ≤ 4096 →
     json_loads (read (rfile self') n') = Return (PyDict fields') →
     fields' !! "nonce" = Some (PyStr nonce) →
     fields' !! "signature" = Some signature_b64' →
     truthy signature_b64' = true →
     do_POST self' now' g1
     = Ran (Return tt) g1
         [RfileRead n'; JsonLoads (read (rfile self') n');
          ValidateAndConsume (PyStr nonce);
          SendError 403 (Some "Invalid or expired challenge")]) as Hreplay.
  { intros self' now' n' fields' sig' Hp Hn Hle Hj Hnonce Hsig Hts.
    apply (do_POST_unknown_nonce self' now' g1 n' fields' nonce sig');
      try done.
    apply (valid_nonce_non_empty _ _ _ _ _ _ _ _ _ _ Hv). }
  split; [done|]. intros now'.
  destruct Hv as [_ Hp Hn Hle Hj Hnonce Hne Hsig Hts _ _ _ _ _ _].
  by rewrite (Hreplay self now' n fields signature_b64).
Qed.

Lemma replay_rejected_witness :
  responses
    (trace_of
       (do_POST Scenarios.good_request 111
          (globals_of (do_POST Scenarios.good_request 110 g0))))
  = [403].
Proof.
  destruct (replay_rejected Scenarios.good_request 110 g0 36
              (list_to_map [("nonce", PyStr "n1"); ("signature", PyStr "bjE=")])
              "n1" (PyStr "bjE=") (Entry (PyStr "challenge") 100)
              (b "n1") (b "n1")) as [_ Hsame].
  - split; try reflexivity; try discriminate; simpl; lia.
  - by destruct (Hsame 111).
Defined.

(** X7.  A request with a registered nonce whose TTL has run out is
    answered 403; the signature is neither decoded nor verified, the entry
    is removed, and the result cell is as it was. *)
Theorem expired_request_rejected `{Libraries} (self : Request) (now : Z)
    (g : module_state) n fields k signature_b64 e :
  path self = "/auth/response" →
  read_content_length self = Return n →
  n ≤ 4096 →
  json_loads (read (rfile self) n) = Return (PyDict fields) →
  fields !! "nonce" = Some (PyStr k) → k ≠ "" →
  fields !! "signature" = Some signature_b64 →
  truthy signature_b64 = true →
  _challenges (challenge_store g) !! k = Some e →
  now - created e > ttl (challenge_store g) →
  do_POST self now g
  = Ran (Return tt)
      (with_store g
         {| ttl := ttl (challenge_store g);
            _challenges := delete k (_challenges (challenge_store g)) |})
      [RfileRead n; JsonLoads (read (rfile self) n);
       ValidateAndConsume (PyStr k);
       SendError 403 (Some "Invalid or expired challenge")].
Proof.
  intros Hp Hn Hle Hj Hnonce Hne Hsig Hts Hreg Hexp.
  apply (do_POST_bad_challenge self now g n fields (PyStr k) signature_b64);
    try done.
  - simpl. by destruct (String.eqb_spec k "").
  - rewrite validate_and_consume_str, Hreg. simpl.
    by destruct (Z.gtb_spec (now - created e) (ttl (challenge_store g))); [|lia].
Qed.

(** The challenge of time 100 with a TTL of 30, answered at time 131. *)
Lemma expired_request_rejected_witness :
  responses (trace_of (do_POST Scenarios.good_request 131 g0)) = [403]
  ∧ _challenges
      (challenge_store (globals_of (do_POST Scenarios.good_request 131 g0)))
      !! "n1" = None.
Proof.
  rewrite (expired_request_rejected Scenarios.good_request 131 g0 36
             (list_to_map [("nonce", PyStr "n1"); ("signature", PyStr "bjE=")])
             "n1" (PyStr "bjE=") (Entry (PyStr "challenge") 100));
    try reflexivity; try discriminate; try (simpl; lia).
  by split.
Defined.

(** X8.  One attempt for a challenge.  A signature that does not verify
    is answered 403 with the nonce consumed and the result cell as it was,
    and from then on every request with that nonce is answered 403,
    whatever its signature. *)
Theorem invalid_signature_consumes `{Libraries} (self : Request) (now : Z)
    (g : module_state) n fields k signature_b64 e
    message_bytes signature_bytes :
  path self = "/auth/response" →
  read_content_length self = Return n →
  n ≤ 4096 →
  json_loads (read (rfile self) n) = Return (PyDict fields) →
  fields !! "nonce" = Some (PyStr k) → k ≠ "" →
  fields !! "signature" = Some signature_b64 →
  truthy signature_b64 = true →
  _challenges (challenge_store g) !! k = Some e →
  now - created e ≤ ttl (challenge_store g) →
  data e ≠ PyNone →
  b64decode signature_b64 = Return signature_bytes →
  str_encode k = Return message_bytes →
  verify_signature (HAS_CRYPTO g) (device_pubkey_pem g)
    message_bytes signature_bytes = Return false →
  let r := do_POST self now g in
  outcome_of r = Return tt
  ∧ responses (trace_of r) = [403]
  ∧ last (trace_of r) = Some (SendError 403 (Some "Invalid signature"))
  ∧ auth_result (globals_of r) = auth_result g
  ∧ _challenges (challenge_store (globals_of r)) !! k = None
  ∧ (∀ (self' : Request) (now' : Z) n' fields' signature_b64',
       path self' = "/auth/response" →
       read_content_length self' = Return n' →
       n' ≤ 4096 →
       json_loads (read (rfile self') n') = Return (PyDict fields') →
       fields' !! "nonce" = Some (PyStr k) →
       fields' !! "signature" = Some signature_b64' →
       truthy signature_b64' = true →
       responses (trace_of (do_POST self' now' (globals_of r))) = [403]
       ∧ globals_of (do_POST self' now' (globals_of r)) = globals_of r).
Proof.
  intros Hp Hn Hle Hj Hnonce Hne Hsig Hts Hreg Hfresh Hpay Hb Henc Hver r.
  subst r.
  rewrite (do_POST_bad_signature self now g n fields k signature_b64 e
             message_bytes signature_bytes) by done.
  simpl. split_and!; try done.
  - apply lookup_delete_eq.
  - intros self' now' n' fields' sig' Hp' Hn' Hle' Hj' Hnonce' Hsig' Hts'.
    rewrite (do_POST_unknown_nonce self' now' _ n' fields' k sig');
      try done.
    simpl. apply lookup_delete_eq.
Qed.

(** With a key of a family that is not supported nothing verifies: the
    request that carries the right signature is answered 403 and the
    challenge is gone. *)
Lemma invalid_signature_consumes_witness :
  responses (trace_of (do_POST Scenarios.good_request 110 MoreScenarios.g_rsa))
  = [403]
  ∧ _challenges
      (challenge_store
         (globals_of (do_POST Scenarios.good_request 110 MoreScenarios.g_rsa)))
      !! "n1" = None.
Proof.
  destruct (invalid_signature_consumes Scenarios.good_request 110
              MoreScenarios.g_rsa 36
              (list_to_map [("nonce", PyStr "n1"); ("signature", PyStr "bjE=")])
              "n1" (PyStr "bjE=") (Entry (PyStr "challenge") 100)
              (b "n1") (b "n1"))
    as (_ & Hresp & _ & _ & Hgone & _);
    try reflexivity; try discriminate; try (simpl; lia).
  by split.
Defined.

(** X9.  Exceptions that the handler lets through.  A body that parses to
    something else than an object, and a nonce that is a list or an
    object, raise an exception that is not handled: nothing is sent on the
    connection, the module state is as it was, and the server goes on. *)
Theorem unhandled_exceptions `{Libraries} (self : Request) (now : Z)
    (g : module_state) n :
  path self = "/auth/response" →
  read_content_length self = Return n →
  n ≤ 4096 →
  (∀ payload,
     json_loads (read (rfile self) n) = Return payload →
     (∀ fields, payload ≠ PyDict fields) →
     do_POST self now g
     = Ran (Raise AttributeError) g
         [RfileRead n; JsonLoads (read (rfile self) n)])
  ∧ (∀ fields nonce signature_b64,
       json_loads (read (rfile self) n) = Return (PyDict fields) →
       fields !! "nonce" = Some nonce → truthy nonce = true →
       (∃ l, nonce = PyList l) ∨ (∃ d, nonce = PyDict d) →
       fields !! "signature" = Some signature_b64 →
       truthy signature_b64 = true →
       do_POST self now g
       = Ran (Raise TypeError) g
           [RfileRead n; JsonLoads (read (rfile self) n);
            ValidateAndConsume nonce])
  ∧ (∀ e tr deadline t rest,
       do_POST self now g = Ran (Raise e) g tr →
       command self = "POST" →
       t < deadline →
       _result (auth_result g) = PyNone →
       serve deadline ((t, Connection self now) :: rest) g
       = Ran (Return tt) (globals_of (serve deadline rest g))
           (tr ++ trace_of (serve deadline rest g))).
Proof.
  intros Hp Hn Hle. split_and!.
  - intros payload Hj Hd. by apply (do_POST_not_a_dict _ _ _ _ payload).
  - intros fields nonce sig Hj Hnonce Htn Hunhashable Hsig Hts.
    handler_unfold.
    rewrite (path_eqb _ Hp), Hn, (gtb_false _ Hle). simpl.
    rewrite Hj. simpl. rewrite Hnonce, Hsig. simpl. rewrite Htn, Hts. simpl.
    destruct Hunhashable as [[l ->] | [d ->]]; simpl; by destruct g.
  - intros e tr deadline t rest Hdo Hc Ht Hres.
    rewrite serve_cons, Hres, handle_request_Connection.
    assert ((t <? deadline) = true) as -> by (by apply Z.ltb_lt).
    unfold handle_one_request. rewrite Hc. simpl. rewrite Hdo. simpl.
    by rewrite serve_returns.
Qed.

(** A body that is the JSON list [[]]: no answer, and the challenge is
    still there. *)
Lemma unhandled_exceptions_witness :
  do_POST MoreScenarios.list_request 110 g0
  = Ran (Raise AttributeError) g0
      [RfileRead 2; JsonLoads (b "[]")].
Proof.
  destruct (unhandled_exceptions MoreScenarios.list_request 110 g0 2)
    as (Hlist & _); [reflexivity|reflexivity|lia|].
  by apply (Hlist (PyList [])).
Defined.

Section store_shrinks.

Context `{Libraries}.

Lemma handle_request_subseteq (a : arrival) (g : module_state) :
  _challenges (challenge_store (globals_of (handle_request a g)))
  ⊆ _challenges (challenge_store g)
  ∧ ttl (challenge_store (globals_of (handle_request a g)))
    = ttl (challenge_store g)
  ∧ HAS_CRYPTO (globals_of (handle_request a g)) = HAS_CRYPTO g
  ∧ device_pubkey_pem (globals_of (handle_request a g)) = device_pubkey_pem g.
Proof.
  destruct a as [|req now]; [done|].
  rewrite handle_request_Connection. simpl.
  destruct (handle_one_request_rest req now g) as [Hc Hk].
  destruct (handle_one_request_store req now g) as [-> | [k ->]];
    split_and!; try done.
  simpl. apply delete_subseteq.
Qed.

Lemma serve_subseteq (deadline : Z) sched (g : module_state) :
  _challenges (challenge_store (globals_of (serve deadline sched g)))
  ⊆ _challenges (challenge_store g)
  ∧ ttl (challenge_store (globals_of (serve deadline sched g)))
    = ttl (challenge_store g)
  ∧ HAS_CRYPTO (globals_of (serve deadline sched g)) = HAS_CRYPTO g
  ∧ device_pubkey_pem (globals_of (serve deadline sched g))
    = device_pubkey_pem g.
Proof.
  revert g. induction sched as [|[t a] rest IH]; intros g; [done|].
  rewrite serve_cons. destruct (_ && _); [|done]. simpl.
  destruct (IH (globals_of (handle_request a g))) as (Hs & Ht & Hc & Hk).
  destruct (handle_request_subseteq a g) as (Hs1 & Ht1 & Hc1 & Hk1).
  split_and!; [by etrans|congruence..].
Qed.

Lemma run_server_subseteq (port : Z) (nonce : string)
    (challenge_json pubkey_pem : pyval) (timeout : Z) (can_bind : Z → bool)
    (t_add t_start t_join : Z) sched (g : module_state) :
  _challenges
    (challenge_store
       (globals_of
          (run_server port nonce challenge_json pubkey_pem timeout can_bind
             t_add t_start t_join sched g)))
  ⊆ _challenges
      (challenge_store (registered nonce challenge_json pubkey_pem t_add g)).
Proof.
  destruct (run_server_cases port nonce challenge_json pubkey_pem timeout
              can_bind t_add t_start t_join sched g)
    as [(e & _ & ->) | (_ & T & Hg & _)]; [done|].
  cbv zeta in Hg. rewrite Hg. unfold server_thread.
  destruct (thread_deadline timeout t_start) as [deadline|]; [|done].
  by destruct (serve_subseteq deadline (complete_by T sched)
                 (registered nonce challenge_json pubkey_pem t_add g))
    as (Hs & _).
Qed.

End store_shrinks.

(** X10.  Requests never register anything.  A request leaves the store
    as it was or removes one entry from it; over a whole run of the loop,
    the entries of the store at the end are entries it had at the start,
    unchanged, and the TTL, [HAS_CRYPTO] and the key are as they were; so
    after [run_server] the store holds nothing but what it held before
    and the challenge of the run. *)
Theorem requests_never_register `{Libraries} :
  (∀ (self : Request) (now : Z) (g : module_state),
     let r := handle_one_request self now g in
     challenge_store (globals_of r) = challenge_store g
     ∨ ∃ k, challenge_store (globals_of r)
            = {| ttl := ttl (challenge_store g);
                 _challenges := delete k (_challenges (challenge_store g)) |})
  ∧ (∀ (deadline : Z) sched (g : module_state) k e,
       _challenges (challenge_store (globals_of (serve deadline sched g))) !! k
       = Some e →
       _challenges (challenge_store g) !! k = Some e)
  ∧ (∀ (deadline : Z) sched (g : module_state),
       ttl (challenge_store (globals_of (serve deadline sched g)))
       = ttl (challenge_store g)
       ∧ HAS_CRYPTO (globals_of (serve deadline sched g)) = HAS_CRYPTO g
       ∧ device_pubkey_pem (globals_of (serve deadline sched g))
         = device_pubkey_pem g)
  ∧ (∀ port nonce challenge_json pubkey_pem timeout can_bind t_add t_start
       t_join sched g k e,
       _challenges
         (challenge_store
            (globals_of
               (run_server port nonce challenge_json pubkey_pem timeout
                  can_bind t_add t_start t_join sched g))) !! k = Some e →
       (k = nonce ∧ e = Entry challenge_json t_add)
       ∨ (k ≠ nonce ∧ _challenges (challenge_store g) !! k = Some e)).
Proof.
  split_and!.
  - apply handle_one_request_store.
  - intros deadline sched g k e Hk.
    destruct (serve_subseteq deadline sched g) as (Hs & _).
    by eapply lookup_weaken.
  - intros deadline sched g.
    by destruct (serve_subseteq deadline sched g) as (_ & ? & ? & ?).
  - intros port nonce challenge_json pubkey_pem timeout can_bind t_add t_start
      t_join sched g k e Hk.
    pose proof (lookup_weaken _ _ _ _ Hk
                  (run_server_subseteq port nonce challenge_json pubkey_pem
                     timeout can_bind t_add t_start t_join sched g)) as Hk1.
    simpl in Hk1.
    destruct (decide (nonce = k)) as [->|Hne].
    + rewrite lookup_insert_eq in Hk1. left. split; congruence.
    + rewrite lookup_insert_ne in Hk1 by done. right. by split.
Qed.

Lemma consumed_live (s : ChallengeStore) (nonce : pyval) (now : Z)
    (payload : pyval) (s' : ChallengeStore) :
  ChallengeStore.validate_and_consume nonce now s = (Return payload, s') →
  is_None payload = false →
  ∃ k e, nonce = PyStr k
         ∧ _challenges s !! k = Some e
         ∧ now - created e ≤ ttl s
         ∧ data e ≠ PyNone
         ∧ _challenges s' !! k = None.
Proof.
  intros Hc Hn.
  pose proof (validate_and_consume_non_empty s nonce now) as Hv.
  rewrite Hc in Hv. simpl in Hv. rewrite Hn in Hv.
  destruct (Hv eq_refl) as (k & e & -> & He & Hfresh & Hdata).
  exists k, e. split_and!; try done.
  rewrite validate_and_consume_str in Hc. injection Hc as _ <-.
  apply lookup_delete_eq.
Qed.

(** X11.  The signature check is run for live challenges only, with the
    device key, over the bytes of the nonce: whenever the handler calls
    [verify_signature], the key is the one of the module state, the
    message is the encoding of a nonce that was registered and within its
    TTL, and that nonce has been removed from the store. *)
Theorem verification_only_when_live `{Libraries} (self : Request) (now : Z)
    (g : module_state) pubkey_pem message_bytes signature_bytes :
  VerifySignature pubkey_pem message_bytes signature_bytes
    ∈ trace_of (do_POST self now g) →
  pubkey_pem = device_pubkey_pem g
  ∧ ∃ k e,
      _challenges (challenge_store g) !! k = Some e
      ∧ now - created e ≤ ttl (challenge_store g)
      ∧ data e ≠ PyNone
      ∧ str_encode k = Return message_bytes
      ∧ _challenges (challenge_store (globals_of (do_POST self now g))) !! k
        = None.
Proof.
  handler_unfold. handler_split.
  all: intros Hin;
       repeat (apply elem_of_cons in Hin as [Heq|Hin];
               [try discriminate Heq|]);
       try (by apply elem_of_nil in Hin).
  all: injection Heq as -> -> ->; split; [done|].
  all: match goal with
       | Hc : ChallengeStore.validate_and_consume _ _ _ = (Return ?p, _),
         Hn : is_None ?p = false, Henc : py_encode _ = Return _ |- _ =>
           destruct (consumed_live _ _ _ _ _ Hc Hn)
             as (k' & e' & Hk' & He' & Hfresh' & Hdata' & Hgone');
           rewrite Hk' in Henc; simpl in Henc
       end.
  all: by exists k', e'.
Qed.

Lemma verification_only_when_live_witness :
  _challenges (challenge_store g0) !! "n1"
  = Some (Entry (PyStr "challenge") 100)
  ∧ _challenges
      (challenge_store (globals_of (do_POST Scenarios.good_request 110 g0)))
      !! "n1" = None.
Proof.
  destruct (verification_only_when_live Scenarios.good_request 110 g0
              (PyStr "ed25519 test key") (b "n1") (b "n1"))
    as (_ & k & e & Hk & _ & _ & Henc & Hgone).
  - vm_compute. do 4 apply list_elem_of_further. apply list_elem_of_here.
  - injection Henc as Hkb.
    assert (k = "n1") as ->.
    { rewrite <- (String.string_of_list_byte_of_string k).
      unfold b in Hkb. by rewrite Hkb. }
    by split.
Defined.

(** X12.  The Content-Length header.  A header that [int] rejects is
    answered 400 before anything is read, with the module state as it
    was.  Without the header the length is 0: nothing is taken from the
    stream, [json.loads] is given the empty body, and when it rejects it
    the answer is 400. *)
Theorem content_length_header_edges `{Libraries} (self : Request) (now : Z)
    (g : module_state) :
  path self = "/auth/response" →
  (∀ h e, content_length_header self = Some h →
          int_of_str h = Raise e →
          issubclass e ValueError = true →
          do_POST self now g
          = Ran (Return tt) g [SendError 400 (Some "Invalid request")])
  ∧ (content_length_header self = None →
     ∃ tr, trace_of (do_POST self now g) = RfileRead 0 :: JsonLoads [] :: tr)
  ∧ (∀ e, content_length_header self = None →
          json_loads [] = Raise e →
          issubclass e ValueError = true →
          do_POST self now g
          = Ran (Return tt) g
              [RfileRead 0; JsonLoads [];
               SendError 400 (Some "Invalid request")]).
Proof.
  intros Hp. split_and!.
  - intros h e Hh Hint He. apply (do_POST_bad_length _ _ _ e); try done.
    unfold read_content_length. by rewrite Hh.
  - intros Hh. handler_unfold. unfold read_content_length.
    rewrite (path_eqb _ Hp), Hh. simpl. handler_split; by eexists.
  - intros e Hh Hj He.
    rewrite (do_POST_bad_json self now g 0 e); try done.
    unfold read_content_length. by rewrite Hh.
Qed.

Lemma content_length_header_edges_witness :
  do_POST MoreScenarios.bad_length_request 110 g0
  = Ran (Return tt) g0 [SendError 400 (Some "Invalid request")]
  ∧ do_POST MoreScenarios.no_length_request 110 g0
    = Ran (Return tt) g0
        [RfileRead 0; JsonLoads []; SendError 400 (Some "Invalid request")].
Proof.
  split.
  - destruct (content_length_header_edges MoreScenarios.bad_length_request
                110 g0) as (Hbad & _); [reflexivity|].
    by apply (Hbad "many" ValueError).
  - destruct (content_length_header_edges MoreScenarios.no_length_request
                110 g0) as (_ & _ & Hnone); [reflexivity|].
    by apply (Hnone JSONDecodeError).
Defined.

(** X13.  A negative Content-Length is below the limit of 4096 and is
    passed to [rfile.read], which then reads the stream to its end: the
    whole of what the client sends, whatever its size, is read and given
    to [json.loads]. *)
Theorem negative_length_reads_all `{Libraries} (self : Request) (now : Z)
    (g : module_state) (n : Z) :
  path self = "/auth/response" →
  read_content_length self = Return n →
  n < 0 →
  ∃ tr, trace_of (do_POST self now g)
        = RfileRead n :: JsonLoads (rfile self) :: tr.
Proof.
  intros Hp Hn Hneg. handler_unfold.
  rewrite (path_eqb _ Hp), Hn.
  assert ((n >? 4096) = false) as -> by (apply gtb_false; lia).
  assert (read (rfile self) n = rfile self) as ->.
  { unfold read. by destruct (Z.ltb_spec n 0); [|lia]. }
  handler_split; by eexists.
Qed.

(** A length of -1 and five thousand bytes: all of them are read. *)
Lemma negative_length_reads_all_witness :
  ∃ tr, trace_of (@do_POST MoreScenarios.signed_libraries
                    MoreScenarios.negative_length_request 110 g0)
        = RfileRead (-1) :: JsonLoads (repeat Byte.x78 5000) :: tr.
Proof.
  apply (@negative_length_reads_all MoreScenarios.signed_libraries
           MoreScenarios.negative_length_request 110 g0 (-1));
    [reflexivity|reflexivity|lia].
Defined.

(** X14.  No key, no acceptance.  When [HAS_CRYPTO] is false, or when the
    device key is not a string, as it is before [run_server] stores one,
    no request is valid: none is answered 200 and the result cell stays
    as it is. *)
Theorem no_key_no_acceptance `{Libraries} (self : Request) (now : Z)
    (g : module_state) :
  HAS_CRYPTO g = false ∨ (∀ pem, device_pubkey_pem g ≠ PyStr pem) →
  let r := handle_one_request self now g in
  ¬ is_valid g now self
  ∧ (200 ∉ responses (trace_of r))
  ∧ auth_result (globals_of r) = auth_result g.
Proof.
  intros Hno r. subst r.
  assert (¬ is_valid g now self) as Hnv.
  { intros (n & fields & nonce & sig & e & msg & sigb & Hv).
    apply valid_verified, verify_signature_true in Hv
      as (Hc & _ & pem & key & Hpem & _).
    destruct Hno as [Hno|Hno]; [congruence|].
    destruct (device_pubkey_pem g) eqn:Hk; try done. by destruct (Hno s). }
  split; [done|].
  by destruct (handle_one_request_commit self now g)
    as [[Hv _] | (? & _ & ?)].
Qed.

(** Before [run_server] the key is [None]: a request with a registered
    nonce and its signature is not accepted. *)
Lemma no_key_no_acceptance_witness :
  200 ∉ responses
          (trace_of
             (handle_one_request Scenarios.good_request 110
                (with_store Scenarios.g_import (challenge_store g0)))).
Proof.
  destruct (no_key_no_acceptance Scenarios.good_request 110
              (with_store Scenarios.g_import (challenge_store g0)))
    as (_ & Hno & _); [right; discriminate|done].
Defined.

(** ** The loop and run_server *)

Section serve_further.

Context `{Libraries}.

(** An iteration that finds the deadline passed ends the loop. *)
Lemma serve_deadline (deadline t : Z) (a : arrival) sched1 sched2
    (g : module_state) :
  deadline ≤ t →
  serve deadline (sched1 ++ (t, a) :: sched2) g = serve deadline sched1 g.
Proof.
  intros Hge. revert g. induction sched1 as [|[t1 a1] rest IH]; intros g.
  - simpl app. rewrite serve_cons.
    by destruct (Z.ltb_spec t deadline); [lia|].
  - rewrite <- app_comm_cons, !serve_cons.
    destruct (_ && _); [|done]. simpl. by rewrite IH.
Qed.

Lemma test_serve_cons (stop_on_auth : bool) (deadline t : Z) (a : arrival)
    rest (g : module_state) :
  test_serve stop_on_auth deadline ((t, a) :: rest) g
  = if (t <? deadline)
       && negb (stop_on_auth && negb (is_None (_result (auth_result g))))
    then
      let r1 := handle_request a g in
      let r2 := test_serve stop_on_auth deadline rest (globals_of r1) in
      Ran (outcome_of r2) (globals_of r2) (trace_of r1 ++ trace_of r2)
    else Ran (Return tt) g [].
Proof.
  simpl. unfold mbind, M_bind, get_globals, mret, M_ret. simpl.
  destruct (t <? deadline); [|done]. simpl.
  destruct (stop_on_auth && negb (is_None (_result (auth_result g))));
    [done|]. simpl.
  pose proof (handle_request_returns a g) as Hret.
  destruct (handle_request a g) as [o g1 tr1]. simpl in *. subst o.
  by destruct (test_serve stop_on_auth deadline rest g1).
Qed.

(** In a schedule in which time goes forward, the loop condition that
    ends the loop is read after the iterations before it have come to an
    end. *)
Lemma serve_end_after (deadline : Z) sched (g : module_state) t_end :
  chronological sched →
  serve_end deadline sched.*1 g = Some t_end →
  match sched with
  | [] => True
  | (t, _, _) :: _ => t ≤ t_end
  end.
Proof.
  revert g. induction sched as [|[[t a] t_done] rest IH]; intros g; [done|].
  simpl. intros (Ht & Hnext & Hrest).
  destruct ((t <? deadline) && is_None (_result (auth_result g)));
    [|intros [= <-]; lia].
  intros Hend. specialize (IH _ Hrest Hend).
  destruct rest as [|[[t' a'] t_done'] rest]; [done|]. lia.
Qed.

(** When the thread has ended, the controller sees the whole of what the
    loop did. *)
Lemma serve_complete_by (deadline T : Z) sched (g : module_state) t_end :
  chronological sched →
  serve_end deadline sched.*1 g = Some t_end →
  t_end ≤ T →
  serve deadline (complete_by T sched) g = serve deadline sched.*1 g.
Proof.
  revert g. induction sched as [|[[t a] t_done] rest IH]; intros g; [done|].
  intros Hchron Hend HT.
  pose proof Hchron as (Ht & Hnext & Hrest).
  simpl in Hend. simpl fmap. rewrite serve_cons.
  destruct ((t <? deadline) && is_None (_result (auth_result g))) eqn:Htest.
  - pose proof (serve_end_after _ _ _ _ Hrest Hend) as Hafter.
    assert (t_done ≤ T) as Hdone.
    { destruct rest as [|[[t' a'] t_done'] rest].
      - simpl in Hend. discriminate.
      - simpl in Hnext. lia. }
    simpl. destruct (Z.leb_spec t_done T); [|lia].
    rewrite serve_cons, Htest. cbv zeta.
    by rewrite (IH _ Hrest Hend HT).
  - simpl. destruct (t_done <=? T); [|done].
    by rewrite serve_cons, Htest.
Qed.

(** Whether [run_server] returns [True], by what the thread has done
    when [join] returns. *)
Lemma run_server_exact (port : Z) (nonce : string)
    (challenge_json pubkey_pem : pyval) (timeout : Z) (can_bind : Z → bool)
    (t_add t_start t_join : Z) sched (g : module_state) (T : Z) :
  _result (auth_result g) = PyNone →
  let g1 := registered nonce challenge_json pubkey_pem t_add g in
  let r := run_server port nonce challenge_json pubkey_pem timeout can_bind
             t_add t_start t_join sched g in
  HTTPServer can_bind port = Return tt →
  join (timeout + 2) t_join (thread_end timeout t_start sched g1) = Return T →
  (∃ b, outcome_of r = Return b)
  ∧ globals_of r = globals_of (server_thread timeout t_start sched T g1)
  ∧ (outcome_of r = Return true
     ↔ Z.abs timeout ≤ FLOAT_MAX
       ∧ _result (auth_result
                    (globals_of (serve (t_start + timeout)
                                   (complete_by T sched) g1)))
         = PyBool true).
Proof.
  intros Hres g1 r Hb HT. subst r.
  rewrite (run_server_joined _ _ _ _ _ _ _ _ _ _ _ T Hb HT).
  cbn [outcome_of globals_of]. fold g1. split_and!; [by eexists|done|].
  unfold server_thread, thread_deadline.
  destruct (Z.ltb_spec FLOAT_MAX (Z.abs timeout)) as [Hover|Hfits].
  - simpl. rewrite Hres. split; [done|lia].
  - match goal with
    | |- context [is_True ?x] => destruct x as [|[|]| | | | |]
    end; simpl; split; try done; by intros [_ ?].
Qed.

(** A [True] of [run_server] comes from a request that the loop has
    accepted when [join] returns. *)
Lemma run_server_sound (port : Z) (nonce : string)
    (challenge_json pubkey_pem : pyval) (timeout : Z) (can_bind : Z → bool)
    (t_add t_start t_join : Z) sched (g : module_state) :
  _result (auth_result g) = PyNone →
  let g1 := registered nonce challenge_json pubkey_pem t_add g in
  let r := run_server port nonce challenge_json pubkey_pem timeout can_bind
             t_add t_start t_join sched g in
  outcome_of r = Return true →
  ∃ T, globals_of r
       = globals_of (serve (t_start + timeout) (complete_by T sched) g1)
       ∧ Z.abs timeout ≤ FLOAT_MAX
       ∧ _result (auth_result (globals_of r)) = PyBool true.
Proof.
  intros Hres g1 r Htrue. subst r.
  destruct (run_server_cases port nonce challenge_json pubkey_pem timeout
              can_bind t_add t_start t_join sched g)
    as [(e0 & Hb & Heq) | (Hb & T & _ & _ & Hout)].
  { rewrite Heq in Htrue. discriminate. }
  destruct Hout as [(_ & _ & Hout) | (_ & HT & _)];
    [rewrite Hout in Htrue; discriminate|].
  destruct (run_server_exact port nonce challenge_json pubkey_pem timeout
              can_bind t_add t_start t_join sched g T Hres Hb HT)
    as (_ & Hg & Hiff).
  apply Hiff in Htrue as [Hfits Hset]. exists T.
  assert (server_thread timeout t_start sched T g1
          = serve (t_start + timeout) (complete_by T sched) g1) as Hthread.
  { unfold server_thread, thread_deadline.
    by destruct (Z.ltb_spec FLOAT_MAX (Z.abs timeout)); [lia|]. }
  subst g1. rewrite Hg, Hthread. by split_and!.
Qed.

(** A loop that ends with [True] in the result cell has met a request
    that was valid in the state it met, a state with no more challenges
    than the loop started with, and has consumed its nonce. *)
Lemma serve_true_inv (deadline : Z) sched (g : module_state) :
  _result (auth_result g) = PyNone →
  _result (auth_result (globals_of (serve deadline sched g))) = PyBool true →
  ∃ t req now n fields nonce signature_b64 e message_bytes signature_bytes g',
    (t, Connection req now) ∈ sched
    ∧ t < deadline
    ∧ _challenges (challenge_store g') ⊆ _challenges (challenge_store g)
    ∧ ttl (challenge_store g') = ttl (challenge_store g)
    ∧ HAS_CRYPTO g' = HAS_CRYPTO g
    ∧ device_pubkey_pem g' = device_pubkey_pem g
    ∧ valid_request g' now req n fields nonce signature_b64 e
        message_bytes signature_bytes
    ∧ wfile_write req = Return tt
    ∧ _challenges (challenge_store (globals_of (serve deadline sched g)))
      !! nonce = None.
Proof.
  revert g. induction sched as [|[t a] rest IH]; intros g Hres.
  { simpl. rewrite Hres. discriminate. }
  rewrite serve_cons, Hres. cbn [is_None]. rewrite andb_true_r.
  destruct (Z.ltb_spec t deadline) as [Hlt|Hge];
    [|cbn [globals_of]; rewrite Hres; discriminate].
  cbv zeta. cbn [globals_of].
  destruct (handle_request_result a g Hres) as [[Hv Hset] | (Hsame & _)].
  - intros _. destruct a as [|req now]; [done|].
    rewrite serve_decided by (by rewrite Hset).
    destruct Hv as [(n & fields & nonce & sig & e & msg & sigb & Hv) Hw].
    exists t, req, now, n, fields, nonce, sig, e, msg, sigb, g.
    split_and!; try done; [apply list_elem_of_here|].
    cbn [globals_of]. rewrite handle_request_Connection. cbn [globals_of].
    unfold handle_one_request.
    rewrite (valid_command _ _ _ _ _ _ _ _ _ _ Hv).
    replace (String.eqb "POST" "POST") with true by reflexivity.
    apply (accepted_nonce_gone _ _ _ _ _ _ _ _ _ _ Hv).
  - intros Htrue.
    assert (_result (auth_result (globals_of (handle_request a g))) = PyNone)
      as Hnone by (by rewrite Hsame).
    destruct (IH _ Hnone Htrue)
      as (t' & req & now & n & fields & nonce & sig & e & msg & sigb & g'
          & Hin & Hlt' & Hsub & Httl & Hc & Hk & Hv & Hw & Hgone).
    destruct (handle_request_subseteq a g) as (Hs1 & Ht1 & Hc1 & Hk1).
    exists t', req, now, n, fields, nonce, sig, e, msg, sigb, g'.
    split_and!; try done; try congruence.
    + by apply list_elem_of_further.
    + by etrans.
Qed.

End serve_further.

(** X15.  The answer of [run_server], started with an undecided result
    cell.  It raises when the port cannot be bound and when [join]
    refuses the timeout, and in no other case; otherwise it returns a
    boolean.  The answer is [True] only if the loop accepted a request in
    an iteration that began before the deadline, and exactly when it had
    done so by the time [join] returned.  It is [True] whenever, time going
    forward, the loop has accepted a request by the end of the timeout of
    [join]. *)
Theorem run_server_true_iff_accepts `{Libraries} (port : Z) (nonce : string)
    (challenge_json pubkey_pem : pyval) (timeout : Z) (can_bind : Z → bool)
    (t_add t_start t_join : Z) (sched : list (Z * arrival * Z))
    (g : module_state) :
  _result (auth_result g) = PyNone →
  let g1 := registered nonce challenge_json pubkey_pem t_add g in
  let deadline := t_start + timeout in
  let r := run_server port nonce challenge_json pubkey_pem timeout can_bind
             t_add t_start t_join sched g in
  (∀ e, outcome_of r = Raise e
        ↔ HTTPServer can_bind port = Raise e
          ∨ (HTTPServer can_bind port = Return tt
             ∧ TIMEOUT_MAX < timeout + 2 ∧ e = OverflowError))
  ∧ (outcome_of r = Return true →
     Z.abs timeout ≤ FLOAT_MAX ∧ accepts deadline sched.*1 g1)
  ∧ (∀ T, HTTPServer can_bind port = Return tt →
          join (timeout + 2) t_join (thread_end timeout t_start sched g1)
          = Return T →
          (∃ b, outcome_of r = Return b)
          ∧ (outcome_of r = Return true
             ↔ Z.abs timeout ≤ FLOAT_MAX
               ∧ accepts deadline (complete_by T sched) g1))
  ∧ (HTTPServer can_bind port = Return tt →
     timeout + 2 ≤ TIMEOUT_MAX →
     Z.abs timeout ≤ FLOAT_MAX →
     chronological sched →
     accepts deadline (complete_by (t_join + Z.max (timeout + 2) 0) sched) g1 →
     outcome_of r = Return true).
Proof.
  intros Hres g1 deadline r.
  assert (_result (auth_result g1) = PyNone) as Hres1 by done.
  assert (∀ T, HTTPServer can_bind port = Return tt →
               join (timeout + 2) t_join (thread_end timeout t_start sched g1)
               = Return T →
               (∃ b, outcome_of r = Return b)
               ∧ (outcome_of r = Return true
                  ↔ Z.abs timeout ≤ FLOAT_MAX
                    ∧ accepts deadline (complete_by T sched) g1)) as Hexact.
  { intros T Hb HT.
    destruct (run_server_exact port nonce challenge_json pubkey_pem timeout
                can_bind t_add t_start t_join sched g T Hres Hb HT)
      as (Hret & _ & Hiff).
    split; [done|]. fold g1 r deadline in Hiff. rewrite Hiff.
    by rewrite (serve_accepts deadline (complete_by T sched) g1 Hres1). }
  split_and!.
  - intros e. subst r.
    destruct (run_server_cases port nonce challenge_json pubkey_pem timeout
                can_bind t_add t_start t_join sched g)
      as [(e0 & Hb & ->) | (Hb & T & _ & _ & Hout)].
    + cbn [outcome_of]. rewrite Hb. split; [intros [= ->]; by left|].
      by intros [[= ->] | [? _]].
    + rewrite Hb. destruct Hout as [(Hlt & _ & ->) | (Hle & _ & ->)].
      * split; [intros [= <-]; by right|]. by intros [? | (_ & _ & ->)].
      * split; [done|]. intros [? | (_ & Hlt & _)]; [done|lia].
  - intros Htrue.
    destruct (run_server_sound port nonce challenge_json pubkey_pem timeout
                can_bind t_add t_start t_join sched g Hres Htrue)
      as (T & Hg & Hfits & Hset).
    split; [done|]. apply (accepts_complete_by _ T).
    apply (serve_accepts deadline _ g1 Hres1). subst deadline g1.
    by rewrite <- Hg.
  - done.
  - intros Hb Hle Hfits Hchron Hacc.
    destruct (join_returns (timeout + 2) t_join
                (thread_end timeout t_start sched g1) Hle) as [T HT].
    destruct (Hexact T Hb HT) as [_ Hiff]. apply Hiff. split; [done|].
    remember (t_join + Z.max (timeout + 2) 0) as limit eqn:Hlimit.
    assert (thread_end timeout t_start sched g1
            = serve_end deadline sched.*1 g1) as Hend.
    { unfold thread_end, thread_deadline.
      by destruct (Z.ltb_spec FLOAT_MAX (Z.abs timeout)); [lia|]. }
    rewrite Hend in HT. unfold join in HT.
    destruct (TIMEOUT_MAX <? timeout + 2); [done|].
    rewrite <- Hlimit in HT.
    destruct (serve_end deadline sched.*1 g1) as [t_end|] eqn:Hse;
      [|by injection HT as <-].
    destruct (Z.leb_spec t_end limit) as [Hin|Hout];
      [|by injection HT as <-].
    injection HT as <-.
    apply (serve_accepts deadline _ g1 Hres1).
    rewrite (serve_complete_by deadline _ sched g1 t_end Hchron Hse) by lia.
    apply (serve_accepts deadline _ g1 Hres1).
    by apply (accepts_complete_by _ limit).
Qed.

(** A quiet second, then the valid request: [run_server] returns [True].
    With a timeout that [join] does not take it raises. *)
Lemma run_server_true_iff_accepts_witness :
  outcome_of
    (run_server 8765 "n1" (PyStr "challenge") (PyStr "ed25519 test key")
       30 (λ port, port =? 8765) 100 100 100
       [(101, NoConnection, 102);
        (102, Connection Scenarios.good_request 110, 110)]
       Scenarios.g_import)
  = Return true
  ∧ outcome_of
      (run_server 8765 "n1" (PyStr "challenge") (PyStr "ed25519 test key")
         10000000000 (λ port, port =? 8765) 100 100 100 []
         Scenarios.g_import)
    = Raise OverflowError.
Proof.
  split.
  - destruct (run_server_true_iff_accepts 8765 "n1" (PyStr "challenge")
                (PyStr "ed25519 test key") 30 (λ port, port =? 8765)
                100 100 100
                [(101, NoConnection, 102);
                 (102, Connection Scenarios.good_request 110, 110)]
                Scenarios.g_import) as (_ & _ & _ & Hcomplete);
      [reflexivity|].
    apply Hcomplete; [reflexivity|vm_compute; discriminate
                     |vm_compute; discriminate|simpl; lia|].
    simpl. split; [lia|]. right. split; [lia|]. left. split; [|reflexivity].
    exists 36,
      (list_to_map [("nonce", PyStr "n1"); ("signature", PyStr "bjE=")]),
      "n1", (PyStr "bjE="), (Entry (PyStr "challenge") 100), (b "n1"), (b "n1").
    split; try reflexivity; try discriminate; simpl; lia.
  - destruct (run_server_true_iff_accepts 8765 "n1" (PyStr "challenge")
                (PyStr "ed25519 test key") 10000000000 (λ port, port =? 8765)
                100 100 100 [] Scenarios.g_import) as (Hraise & _);
      [reflexivity|].
    apply Hraise. right. split_and!; [reflexivity|vm_compute; reflexivity|done].
Defined.



(** X17.  The deadline.  Once an iteration of the loop finds the deadline
    reached, what arrives in it or later is not handled, a valid request
    either: the loop does what it did up to there. *)
Theorem nothing_after_deadline `{Libraries} (deadline t : Z) (a : arrival)
    (sched1 sched2 : list (Z * arrival)) (g : module_state) :
  deadline ≤ t →
  serve deadline (sched1 ++ (t, a) :: sched2) g = serve deadline sched1 g.
Proof. apply serve_deadline. Qed.

(** The valid request arrives when the thirty seconds are over: the loop
    does what it does without it. *)
Lemma nothing_after_deadline_witness :
  serve 130 ([(101, NoConnection)]
             ++ (130, Connection Scenarios.good_request 110) :: []) g0
  = serve 130 [(101, NoConnection)] g0.
Proof.
  apply (nothing_after_deadline 130 130
           (Connection Scenarios.good_request 110) [(101, NoConnection)] [] g0).
  lia.
Defined.

(** ** The loop of the tests *)

(** X18.  With [stop_on_auth] set, the loop that the tests run is the loop
    of [run_server]: on every schedule and in every state the two do the
    same. *)
Theorem test_loop_is_serve `{Libraries} (deadline : Z)
    (sched : list (Z * arrival)) (g : module_state) :
  test_serve true deadline sched g = serve deadline sched g.
Proof.
  revert g. induction sched as [|[t a] rest IH]; intros g; [done|].
  rewrite test_serve_cons, serve_cons. simpl.
  rewrite negb_involutive. destruct (_ && _); [|done].
  simpl. by rewrite IH.
Qed.



(** ** main *)

(** X20.  With fewer than four arguments [main] prints the usage on the
    standard error and exits with status 1: nothing is printed on the
    standard output, no file is read, and no challenge is registered. *)
Theorem main_usage `{Libraries} (env : environment) (g : module_state) :
  (length (argv env) < 5)%nat →
  main env g = Process [] [usage] (SysExit 1) g [].
Proof.
  unfold main.
  destruct (argv env) as [|a0 [|a1 [|a2 [|a3 [|a4 rest]]]]]; simpl;
    try done; lia.
Qed.

Lemma main_usage_witness :
  main (MoreScenarios.env_of ["8765"; "n1"] []) Scenarios.g_import
  = Process [] [usage] (SysExit 1) Scenarios.g_import [].
Proof. apply main_usage. simpl. lia. Defined.

(** What the timeout argument of the command line reads as. *)
Lemma HTTPServer_refused (can_bind : Z → bool) (port : Z) :
  can_bind port = false → ∃ e, HTTPServer can_bind port = Raise e.
Proof.
  intros Hb. unfold HTTPServer. destruct (_ || _); [by eexists|].
  rewrite Hb. by eexists.
Qed.

(** X21.  [main], started with an undecided result cell and an empty
    store.  The exit status is 0 or 1, and at most one line is printed on
    the standard output.  The status is 0 exactly when AUTH_SUCCESS is
    printed, and then the loop has met, in an iteration that began before
    the deadline, a request whose nonce is the nonce of the command line
    and whose signature verifies, under the key of the key file, over the
    bytes of that nonce; the challenge was within its TTL, the
    acknowledgement was written, and the nonce is no longer in the store.
    When AUTH_TIMEOUT is printed the status is 1. *)
Theorem main_exit_status `{Libraries} (env : environment)
    (g : module_state) :
  _result (auth_result g) = PyNone →
  _challenges (challenge_store g) = ∅ →
  let p := main env g in
  (exit_status p = 0 ∨ exit_status p = 1)
  ∧ (exit_status p = 0 ↔ stdout p = ["AUTH_SUCCESS"])
  ∧ (stdout p = ["AUTH_TIMEOUT"] → termination_of p = SysExit 1)
  ∧ (stdout p = [] ∨ stdout p = ["AUTH_SUCCESS"]
     ∨ stdout p = ["AUTH_TIMEOUT"])
  ∧ (exit_status p = 0 →
     ∃ script port nonce challenge_json file rest timeout pubkey_pem,
       argv env = script :: port :: nonce :: challenge_json :: file :: rest
       ∧ match rest with
         | [] => Return 30
         | arg5 :: _ => int_of_str arg5
         end = Return timeout
       ∧ read_text env file = Some pubkey_pem
       ∧ _challenges (challenge_store (state_of p)) !! nonce = None
       ∧ ∃ t req now n fields signature_b64 message_bytes signature_bytes,
           (t, Connection req now) ∈ (arrivals env).*1
           ∧ t < clock_start env + timeout
           ∧ command req = "POST"
           ∧ path req = "/auth/response"
           ∧ read_content_length req = Return n
           ∧ json_loads (read (rfile req) n) = Return (PyDict fields)
           ∧ fields !! "nonce" = Some (PyStr nonce)
           ∧ fields !! "signature" = Some signature_b64
           ∧ b64decode signature_b64 = Return signature_bytes
           ∧ str_encode nonce = Return message_bytes
           ∧ verify_signature (HAS_CRYPTO g) (PyStr pubkey_pem)
               message_bytes signature_bytes = Return true
           ∧ now - clock_add env ≤ ttl (challenge_store g)
           ∧ wfile_write req = Return tt).
Proof.
  intros Hres Hempty p. subst p. unfold main.
  destruct (argv env) as [|a0 [|a1 [|a2 [|a3 [|a4 rest]]]]] eqn:Hargv;
    try solve [simpl; split_and!; (done || auto)].
  destruct (int_of_str a1) as [port|e];
    [|solve [simpl; split_and!; (done || auto)]].
  destruct (match rest with [] => Return 30 | arg5 :: _ => int_of_str arg5 end)
    as [timeout|e] eqn:Htimeout; [|solve [simpl; split_and!; (done || auto)]].
  destruct (read_text env a4) as [pem|] eqn:Hread;
    [|solve [simpl; split_and!; (done || auto)]].
  cbv zeta.
  pose proof (run_server_sound port a2 (PyStr a3) (PyStr pem) timeout
                (can_bind env) (clock_add env) (clock_start env)
                (clock_join env) (arrivals env) g Hres) as Hsound.
  cbv zeta in Hsound.
  destruct (outcome_of _) as [[|]|e] eqn:Hout; simpl; split_and!;
    try (done || auto).
  intros _. destruct (Hsound eq_refl) as (T & Hg & _ & Hset).
  rewrite Hg in Hset.
  assert (_result (auth_result
                     (registered a2 (PyStr a3) (PyStr pem) (clock_add env) g))
          = PyNone) as Hres1 by done.
  destruct (serve_true_inv _ _ _ Hres1 Hset)
    as (t & req & now & n & fields & nonce & sig & e & msg & sigb & g'
        & Hin & Hlt & Hsub & Httl & Hc & Hk & Hv & Hw & Hgone).
  destruct Hv as [Hcmd Hp Hn Hle Hj Hnonce Hne Hsig Hts Hreg Hfresh Hpay Hb
                    Henc Hver].
  pose proof (lookup_weaken _ _ _ _ Hreg Hsub) as Hreg1.
  unfold registered in Hreg1. simpl in Hreg1. rewrite Hempty in Hreg1.
  apply lookup_insert_Some in Hreg1 as [[<- <-] | [_ Hin0]];
    [|by rewrite lookup_empty in Hin0].
  exists a0, a1, a2, a3, a4, rest, timeout, pem.
  split_and!; try done; [by rewrite Hg|].
  exists t, req, now, n, fields, sig, msg, sigb.
  rewrite Hc, Hk in Hver. rewrite Httl in Hfresh. simpl in Hfresh, Hver.
  split_and!; try done.
  destruct (complete_by_prefix T (arrivals env)) as [rest' ->].
  apply elem_of_app. by left.
Qed.

(** The run in which the valid request arrives: AUTH_SUCCESS and
    status 0. *)
Lemma main_exit_status_witness :
  let p := main (MoreScenarios.env_of ["8765"; "n1"; "challenge"; "key.pem"]
                   [(101, Connection Scenarios.good_request 110, 110)])
             Scenarios.g_import in
  stdout p = ["AUTH_SUCCESS"] ∧ exit_status p = 0.
Proof.
  destruct (main_exit_status
              (MoreScenarios.env_of ["8765"; "n1"; "challenge"; "key.pem"]
                 [(101, Connection Scenarios.good_request 110, 110)])
              Scenarios.g_import) as (_ & Hiff & _);
    [reflexivity|reflexivity|].
  assert (stdout (main (MoreScenarios.env_of
                          ["8765"; "n1"; "challenge"; "key.pem"]
                          [(101, Connection Scenarios.good_request 110, 110)])
                    Scenarios.g_import) = ["AUTH_SUCCESS"]) as Hout
    by reflexivity.
  split; [exact Hout|]. by apply Hiff.
Defined.

(** X22.  Without a fifth argument the timeout is 30: [main] does what it
    does when the fifth argument is the text 30. *)
Theorem main_default_timeout `{Libraries} (env : environment)
    (g : module_state) (script port nonce challenge_json file : string) :
  argv env = [script; port; nonce; challenge_json; file] →
  int_of_str "30" = Return 30 →
  main env g
  = main {| argv := [script; port; nonce; challenge_json; file; "30"];
            read_text := read_text env;
            can_bind := can_bind env;
            clock_add := clock_add env;
            clock_start := clock_start env;
            clock_join := clock_join env;
            arrivals := arrivals env |} g.
Proof.
  intros Hargv H30. unfold main. rewrite Hargv. simpl.
  destruct (int_of_str port); [|done]. by rewrite H30.
Qed.

Lemma main_default_timeout_witness :
  main (MoreScenarios.env_of ["8765"; "n1"; "challenge"; "key.pem"]
          [(129, Connection Scenarios.good_request 110, 129)])
    Scenarios.g_import
  = main (MoreScenarios.env_of ["8765"; "n1"; "challenge"; "key.pem"; "30"]
            [(129, Connection Scenarios.good_request 110, 129)])
      Scenarios.g_import.
Proof.
  by apply (main_default_timeout
              (MoreScenarios.env_of ["8765"; "n1"; "challenge"; "key.pem"]
                 [(129, Connection Scenarios.good_request 110, 129)])
              Scenarios.g_import
              "askpass-android-server.py" "8765" "n1" "challenge" "key.pem").
Defined.

(** X23.  What ends [main] before it serves.  A port or a timeout that
    [int] rejects and a key file that cannot be read end the process with
    an exception before anything is registered; a port that cannot be
    bound ends it when the challenge is registered and the key stored.
    Whenever an exception ends the process, nothing is printed on the
    standard output and the exit status is 1; and no request has been
    handled, unless the exception is the one of [join] for a timeout
    that is too large. *)
Theorem main_fails_before_serving `{Libraries} (env : environment)
    (g : module_state) script arg1 nonce challenge_json file rest :
  argv env = script :: arg1 :: nonce :: challenge_json :: file :: rest →
  (∀ e, int_of_str arg1 = Raise e →
        main env g = Process [] [] Uncaught g [])
  ∧ (∀ arg5 rest' e, rest = arg5 :: rest' →
        int_of_str arg5 = Raise e →
        main env g = Process [] [] Uncaught g [])
  ∧ (∀ port, int_of_str arg1 = Return port →
        (∀ arg5 rest', rest = arg5 :: rest' →
                       ∃ timeout, int_of_str arg5 = Return timeout) →
        (read_text env file = None →
         main env g = Process [] [] Uncaught g [])
        ∧ (∀ pubkey_pem, read_text env file = Some pubkey_pem →
             can_bind env port = false →
             main env g
             = Process [] [] Uncaught
                 (registered nonce (PyStr challenge_json) (PyStr pubkey_pem)
                    (clock_add env) g) []))
  ∧ (termination_of (main env g) = Uncaught →
     stdout (main env g) = []
     ∧ exit_status (main env g) = 1
     ∧ (effects_of (main env g) = []
        ∨ ∃ timeout,
            match rest with
            | [] => Return 30
            | arg5 :: _ => int_of_str arg5
            end = Return timeout
            ∧ TIMEOUT_MAX < timeout + 2)).
Proof.
  intros Hargv. unfold main, exit_status. rewrite Hargv. split_and!.
  - intros e ->. done.
  - intros arg5 rest' e -> He. destruct (int_of_str arg1); [|done].
    by rewrite He.
  - intros port -> Htimeout. split.
    + intros Hread.
      destruct rest as [|arg5 rest']; [by rewrite Hread|].
      destruct (Htimeout arg5 rest' eq_refl) as [timeout ->].
      by rewrite Hread.
    + intros pem Hread Hbind.
      destruct (HTTPServer_refused _ _ Hbind) as [e He].
      destruct rest as [|arg5 rest'].
      * rewrite Hread. cbv zeta.
        by rewrite (run_server_not_bound _ _ _ _ _ _ _ _ _ _ _ e He).
      * destruct (Htimeout arg5 rest' eq_refl) as [timeout ->].
        rewrite Hread. cbv zeta.
        by rewrite (run_server_not_bound _ _ _ _ _ _ _ _ _ _ _ e He).
  - destruct (int_of_str arg1) as [port|e];
      [|by intros _; split_and!; [..|left]].
    destruct (match rest with [] => Return 30 | arg5 :: _ => int_of_str arg5 end)
      as [timeout|e]; [|by intros _; split_and!; [..|left]].
    destruct (read_text env file) as [pem|];
      [|by intros _; split_and!; [..|left]].
    cbv zeta.
    destruct (run_server_cases port nonce (PyStr challenge_json) (PyStr pem)
                timeout (can_bind env) (clock_add env) (clock_start env)
                (clock_join env) (arrivals env) g)
      as [(e & _ & ->) | (_ & T & _ & _ & [(Hlt & _ & ->) | (_ & _ & ->)])].
    + simpl. by intros _; split_and!; [..|left].
    + simpl. intros _. split_and!; [done..|]. right. by exists timeout.
    + by destruct (is_True _).
Qed.

(** The key file is not there; the port is taken. *)
Lemma main_fails_before_serving_witness :
  main (MoreScenarios.env_of ["8765"; "n1"; "challenge"; "missing.pem"] [])
    Scenarios.g_import
  = Process [] [] Uncaught Scenarios.g_import []
  ∧ exit_status
      (main (MoreScenarios.env_of ["80"; "n1"; "challenge"; "key.pem"] [])
         Scenarios.g_import) = 1.
Proof.
  split.
  - destruct (main_fails_before_serving
                (MoreScenarios.env_of
                   ["8765"; "n1"; "challenge"; "missing.pem"] [])
                Scenarios.g_import "askpass-android-server.py" "8765" "n1"
                "challenge" "missing.pem" [] eq_refl) as (_ & _ & Hport & _).
    destruct (Hport 8765) as [Hread _]; [reflexivity|discriminate|].
    by apply Hread.
  - destruct (main_fails_before_serving
                (MoreScenarios.env_of ["80"; "n1"; "challenge"; "key.pem"] [])
                Scenarios.g_import "askpass-android-server.py" "80" "n1"
                "challenge" "key.pem" [] eq_refl) as (_ & _ & _ & Hend).
    by apply Hend.
Defined.

(** ** The device list *)

(** X24.  [_load_android_devices] never raises.  It returns the empty
    list when the file is not there, when it cannot be opened or parsed,
    and when it holds something else than an object or an object without
    devices; for an object with devices it returns their value as it is,
    which need not be a list. *)
Theorem load_android_devices_total (exists_ : string → bool)
    (json_load : string → outcome pyval) (path : string) :
  let devices := _load_android_devices exists_ json_load path in
  (∃ v, devices = Return v)
  ∧ (exists_ path = false → devices = Return (PyList []))
  ∧ (∀ e, json_load path = Raise e → devices = Return (PyList []))
  ∧ (∀ data, json_load path = Return data →
             (∀ d, data ≠ PyDict d) → devices = Return (PyList []))
  ∧ (∀ d, exists_ path = true → json_load path = Return (PyDict d) →
          devices = Return (default (PyList []) (d !! "devices"))).
Proof.
  intros devices. subst devices. unfold _load_android_devices.
  split_and!.
  - destruct (exists_ path); simpl; [|by eexists].
    destruct (json_load path) as [[]|e]; simpl;
      rewrite ?issubclass_Exception; by eexists.
  - intros ->. done.
  - intros e ->. simpl. rewrite issubclass_Exception.
    by destruct (exists_ path).
  - intros data -> Hd. destruct (exists_ path); simpl; [|done].
    destruct data; simpl; try done. by destruct (Hd d).
  - intros d -> ->. done.
Qed.

(** The three files of the tests, and a file whose devices are null. *)
Lemma load_android_devices_total_witness :
  let exists_ := λ path, negb (String.eqb path "/nonexistent/path/devices.json") in
  _load_android_devices exists_ MoreScenarios.device_files
    "/nonexistent/path/devices.json" = Return (PyList [])
  ∧ _load_android_devices exists_ MoreScenarios.device_files "corrupt.json"
    = Return (PyList [])
  ∧ _load_android_devices exists_ MoreScenarios.device_files "devices.json"
    = Return (PyList [PyDict {[ "name" := PyStr "Pixel" ]}])
  ∧ _load_android_devices exists_ MoreScenarios.device_files "null.json"
    = Return PyNone.
Proof.
  intros exists_. split_and!.
  - by apply (load_android_devices_total exists_ MoreScenarios.device_files
                "/nonexistent/path/devices.json").
  - destruct (load_android_devices_total exists_ MoreScenarios.device_files
                "corrupt.json") as (_ & _ & Hraise & _).
    by apply (Hraise JSONDecodeError).
  - destruct (load_android_devices_total exists_ MoreScenarios.device_files
                "devices.json") as (_ & _ & _ & _ & Hdict).
    by rewrite (Hdict {[ "devices" :=
                           PyList [PyDict {[ "name" := PyStr "Pixel" ]}] ]}).
  - destruct (load_android_devices_total exists_ MoreScenarios.device_files
                "null.json") as (_ & _ & _ & _ & Hdict).
    by rewrite (Hdict {[ "devices" := PyNone ]}).
Defined.
